(** * SmartFileOrganizer: the classification, scan, organize and search engine

    A shallow embedding of the non-UI part of [main.py] (the functions
    [get_category], [guess_ai_category], [get_file_info], [scan_folder],
    [organize_files], [export_reports] and [search_files]) together with the
    small part of Python's [str], [pathlib], [os] and [shutil] they call.

    Conventions of the model.
    - Python [str] is [string]; [str.lower] acts on the ASCII letters.
    - A [pathlib.Path] is a record of its root and its name segments (POSIX
      flavour); [Path(s)] is [Path_of_string s].  [Path.suffix] and
      [Path.stem] follow CPython up to 3.13.
    - The file system is a tree of directories and regular files, with a
      current working directory.  There are no symbolic links, no [..]
      segments, no permissions and no quota in it; a directory lists its
      entries in the order of its list, and a new entry goes to the end.
    - The organizer and the exporter run alone on that tree.  The scanner is
      a function of the answers the operating system gives to its calls, so
      that a file that disappears between two calls of one scan, a directory
      that may not be searched, and a modification time that [datetime]
      cannot hold can be expressed.
    - Python exceptions are the [Raise] outcome of a state-and-error monad;
      the state reached when the exception is raised is kept. *)

From Stdlib Require Import List String Ascii Bool Arith ZArith Lia.
From Stdlib Require Import DecimalString DecimalNat FinFun.
Import ListNotations.
Open Scope list_scope.
Open Scope string_scope.

(** ** Python strings *)

Module PyStr.

Definition lower_ascii (c : ascii) : ascii :=
  let n := nat_of_ascii c in
  if ((65 <=? n) && (n <=? 90))%nat then ascii_of_nat (n + 32) else c.

(** [s.lower()] *)
Fixpoint lower (s : string) : string :=
  match s with
  | EmptyString => EmptyString
  | String c s' => String (lower_ascii c) (lower s')
  end.

(** [k in s] for two strings: [k] occurs in [s] as a contiguous block. *)
Fixpoint contains (k s : string) : bool :=
  String.prefix k s ||
  match s with
  | EmptyString => false
  | String _ s' => contains k s'
  end.

(** [s.lstrip(".")] *)
Fixpoint lstrip_dot (s : string) : string :=
  match s with
  | String "." s' => lstrip_dot s'
  | _ => s
  end.

(** [s.rfind(c)], with [None] for Python's [-1]. *)
Fixpoint rfind (c : ascii) (s : string) : option nat :=
  match s with
  | EmptyString => None
  | String a s' =>
      match rfind c s' with
      | Some i => Some (S i)
      | None => if Ascii.eqb a c then Some 0 else None
      end
  end.

(** [s[:n]] and [s[n:]] for [0 <= n]. *)
Fixpoint take (n : nat) (s : string) : string :=
  match n, s with
  | S n', String a s' => String a (take n' s')
  | _, _ => EmptyString
  end.

Fixpoint drop (n : nat) (s : string) : string :=
  match n, s with
  | S n', String _ s' => drop n' s'
  | _, _ => s
  end.

(** [sep.join(l)] *)
Fixpoint join (sep : string) (l : list string) : string :=
  match l with
  | [] => EmptyString
  | [x] => x
  | x :: rest => x ++ sep ++ join sep rest
  end.

(** [s.split(sep)] for a one-character separator. *)
Fixpoint split (sep : ascii) (s : string) : list string :=
  match s with
  | EmptyString => [EmptyString]
  | String a s' =>
      if Ascii.eqb a sep then EmptyString :: split sep s'
      else match split sep s' with
           | [] => [String a EmptyString]
           | x :: rest => String a x :: rest
           end
  end.

(** [str(n)] for a non-negative [int]. *)
Definition of_nat (n : nat) : string :=
  NilEmpty.string_of_uint (Nat.to_uint n).

(** The propositional reading of [k in s]. *)
Definition occurs (k s : string) : Prop :=
  exists a b, s = a ++ k ++ b.

End PyStr.

(** ** pathlib *)

(** The root of a POSIX path: none for a relative path, [/], or [//].  A
    path that begins with exactly two slashes keeps them, in POSIX and in
    [pathlib], and is another path than the one with a single slash; three
    slashes and more are one. *)
Inductive Root := Relative | Slash | Slash2.

Record Path := mkPath { root : Root; parts : list string }.

(** The root of the path is the single slash [/]. *)
Definition anchored (p : Path) : bool :=
  match root p with Slash => true | _ => false end.

Module PurePath.

Definition root_eqb (r1 r2 : Root) : bool :=
  match r1, r2 with
  | Relative, Relative | Slash, Slash | Slash2, Slash2 => true
  | _, _ => false
  end.

(** [p.is_absolute()] *)
Definition is_absolute (p : Path) : bool :=
  match root p with Relative => false | _ => true end.

Definition is_segment (s : string) : bool :=
  negb (s =? "") && negb (s =? ".").

Definition root_of_string (s : string) : Root :=
  if String.prefix "/" s then
    if String.prefix "//" s && negb (String.prefix "///" s) then Slash2 else Slash
  else Relative.

(** [Path(s)]: the root, then the string split at the separators, empty and
    [.] segments dropped. *)
Definition Path_of_string (s : string) : Path :=
  mkPath (root_of_string s) (filter is_segment (PyStr.split "/" s)).

(** [str(p)] *)
Definition str (p : Path) : string :=
  match root p with
  | Slash => "/" ++ PyStr.join "/" (parts p)
  | Slash2 => "//" ++ PyStr.join "/" (parts p)
  | Relative =>
      match parts p with
      | [] => "."
      | _ => PyStr.join "/" (parts p)
      end
  end.

(** [p / q] for two paths, and [p / s] for a path and a string. *)
Definition joinpath (p q : Path) : Path :=
  if is_absolute q then q else mkPath (root p) (parts p ++ parts q)%list.

Definition div (p : Path) (s : string) : Path :=
  joinpath p (Path_of_string s).

(** [p.name] *)
Definition name (p : Path) : string := last (parts p) "".

(** [p.parent] *)
Definition parent (p : Path) : Path :=
  mkPath (root p) (removelast (parts p)).

(** [p == q] *)
Definition eqb (p q : Path) : bool :=
  root_eqb (root p) (root q) &&
  if list_eq_dec string_dec (parts p) (parts q) then true else false.

Definition has_suffix (nm : string) : option nat :=
  match PyStr.rfind "." nm with
  | Some i => if ((0 <? i) && (i <? String.length nm - 1))%nat then Some i else None
  | None => None
  end.

(** [p.suffix] and [p.stem], as functions of [p.name]. *)
Definition suffix_of (nm : string) : string :=
  match has_suffix nm with
  | Some i => PyStr.drop i nm
  | None => ""
  end.

Definition stem_of (nm : string) : string :=
  match has_suffix nm with
  | Some i => PyStr.take i nm
  | None => nm
  end.

Definition suffix (p : Path) : string := suffix_of (name p).
Definition stem (p : Path) : string := stem_of (name p).

Fixpoint strip_prefix (pre l : list string) : option (list string) :=
  match pre, l with
  | [], _ => Some l
  | x :: pre', y :: l' => if x =? y then strip_prefix pre' l' else None
  | _ :: _, [] => None
  end.

(** [p.relative_to(base)]; [None] stands for the [ValueError]. *)
Definition relative_to (p base : Path) : option Path :=
  if root_eqb (root p) (root base) then
    match strip_prefix (parts base) (parts p) with
    | Some rest => Some (mkPath Relative rest)
    | None => None
    end
  else None.

End PurePath.

Notation "p // s" := (PurePath.div p s) (at level 40, left associativity).

(** ** Classifier *)

Definition CATEGORY_MAP : list (string * list string) :=
  [ ("Images", [".jpg"; ".jpeg"; ".png"; ".gif"; ".bmp"; ".tiff"; ".webp"; ".svg"; ".heic"]);
    ("Videos", [".mp4"; ".mkv"; ".avi"; ".mov"; ".flv"; ".wmv"; ".webm"]);
    ("Audio", [".mp3"; ".wav"; ".aac"; ".flac"; ".m4a"; ".ogg"]);
    ("Documents", [".doc"; ".docx"; ".txt"; ".rtf"; ".odt"]);
    ("PDFs", [".pdf"]);
    ("Spreadsheets", [".xls"; ".xlsx"; ".csv"; ".ods"]);
    ("Presentations", [".ppt"; ".pptx"; ".odp"]);
    ("Archives", [".zip"; ".rar"; ".7z"; ".tar"; ".gz"]);
    ("Executables", [".exe"; ".msi"; ".bat"; ".sh"; ".apk"]);
    ("Code", [".py"; ".java"; ".cpp"; ".c"; ".js"; ".php"; ".html"; ".css"; ".ts"; ".ipynb"]) ].

(** [x in l] for a list of strings. *)
Definition mem (x : string) (l : list string) : bool :=
  existsb (String.eqb x) l.

(** The [for category, ext_list in table.items()] loop of [get_category]. *)
Fixpoint first_category (table : list (string * list string)) (extension : string) : string :=
  match table with
  | [] => "Others"
  | (category, ext_list) :: rest =>
      if mem extension ext_list then category else first_category rest extension
  end.

Definition get_category (extension : string) : string :=
  let extension := PyStr.lower extension in
  first_category CATEGORY_MAP extension.

(** [any(k in name for k in keys)] *)
Definition any_in (keys : list string) (name : string) : bool :=
  existsb (fun k => PyStr.contains k name) keys.

Definition guess_ai_category (entry : Path) (base_category : string) : string :=
  if negb (base_category =? "Others") then ""
  else
    let name := PyStr.lower (PurePath.name entry) in
    if any_in ["img"; "image"; "photo"; "camera"; "screenshot"; "snap"] name then "Images"
    else if any_in ["video"; "movie"; "clip"; "record"] name then "Videos"
    else if any_in ["doc"; "report"; "assignment"; "notes"; "letter"] name then "Documents"
    else if any_in ["music"; "song"; "audio"; "track"] name then "Audio"
    else "".

(** The keyword groups of the heuristic in the priority order the
    specification names, and the first-match rule in the specification's
    words: the first group any of whose keywords occurs in the lower-cased
    file name, the empty string when there is none. *)
Definition KEYWORD_GROUPS : list (string * list string) :=
  [ ("Images", ["img"; "image"; "photo"; "camera"; "screenshot"; "snap"]);
    ("Videos", ["video"; "movie"; "clip"; "record"]);
    ("Documents", ["doc"; "report"; "assignment"; "notes"; "letter"]);
    ("Audio", ["music"; "song"; "audio"; "track"]) ].

Fixpoint first_group (groups : list (string * list string)) (name : string) : string :=
  match groups with
  | [] => ""
  | (g, keys) :: rest => if any_in keys name then g else first_group rest name
  end.

Definition aiHint_spec (fileName : string) : string :=
  first_group KEYWORD_GROUPS (PyStr.lower fileName).

(** ** Exceptions and outcomes *)

(** The Python exceptions the modelled calls raise.  [ShutilError] is
    [shutil.Error].  [LoopFuelExhausted] is no Python exception: it is the
    outcome of the model should the numbered-name loop of [organize_files]
    use up its rounds, which [find_free_total] shows it never does. *)
Inductive exn :=
| FileNotFoundError
| FileExistsError
| NotADirectoryError
| IsADirectoryError
| PermissionError
| OSError
| ValueError
| OverflowError
| UnicodeEncodeError
| ShutilError
| LoopFuelExhausted.

Inductive result (A : Type) :=
| Ok (a : A)
| Raise (e : exn).

Arguments Ok {A} a.
Arguments Raise {A} e.

(** ** The file system *)

#[warnings="-register-all"]
Inductive Node :=
| File (content : string) (mtime : Z)
| Dir (entries : list (string * Node)).

Record stat_result := mkStat { st_size : nat; st_mtime : Z }.

Module Tree.

Fixpoint assoc {A : Type} (k : string) (l : list (string * A)) : option A :=
  match l with
  | [] => None
  | (k', v) :: l' => if k =? k' then Some v else assoc k l'
  end.

Definition binding (k : string) (v : option Node) : list (string * Node) :=
  match v with Some n => [(k, n)] | None => [] end.

Definition remove_key (k : string) (l : list (string * Node)) : list (string * Node) :=
  filter (fun e => negb (k =? fst e)) l.

(** Rebind [k] in a directory listing: in place when it is bound, at the
    end when it is new; [None] unbinds it. *)
Fixpoint set_entry (k : string) (v : option Node) (l : list (string * Node))
  : list (string * Node) :=
  match l with
  | [] => binding k v
  | (k', n') :: l' =>
      if k =? k' then (binding k v ++ remove_key k l')%list
      else (k', n') :: set_entry k v l'
  end.

Fixpoint lookup (n : Node) (p : list string) : option Node :=
  match p with
  | [] => Some n
  | x :: p' =>
      match n with
      | Dir es =>
          match assoc x es with
          | Some c => lookup c p'
          | None => None
          end
      | File _ _ => None
      end
  end.

(** A regular file is met on the way along [p] before [p] ends. *)
Fixpoint through_file (n : Node) (p : list string) : bool :=
  match p, n with
  | [], _ => false
  | _ :: _, File _ _ => true
  | x :: p', Dir es =>
      match assoc x es with
      | Some c => through_file c p'
      | None => false
      end
  end.

(** The exception of a system call on a path that [lookup] does not find:
    [ENOTDIR] when the path runs through a regular file, [ENOENT] when a
    name is missing. *)
Definition lookup_error (n : Node) (p : list string) : exn :=
  if through_file n p then NotADirectoryError else FileNotFoundError.

(** Rebind the last segment of [p] below [n]; every directory on the way
    has to exist. *)
Fixpoint put (n : Node) (p : list string) (v : option Node) : result Node :=
  match n with
  | File _ _ => Raise NotADirectoryError
  | Dir es =>
      match p with
      | [] => Raise FileExistsError
      | [x] => Ok (Dir (set_entry x v es))
      | x :: p' =>
          match assoc x es with
          | None => Raise FileNotFoundError
          | Some c =>
              match put c p' v with
              | Ok c' => Ok (Dir (set_entry x (Some c') es))
              | Raise e => Raise e
              end
          end
      end
  end.

Definition filenames (es : list (string * Node)) : list string :=
  map fst (filter (fun e => match snd e with File _ _ => true | Dir _ => false end) es).

Definition dirnames (es : list (string * Node)) : list string :=
  map fst (filter (fun e => match snd e with File _ _ => false | Dir _ => true end) es).

(** [os.walk(top)], top-down, started at the node [n] found at [dirpath]. *)
Fixpoint walk (dirpath : Path) (n : Node) : list (Path * list string * list string) :=
  match n with
  | File _ _ => []
  | Dir es =>
      (dirpath, dirnames es, filenames es) ::
      (fix walk_children (l : list (string * Node)) :=
         match l with
         | [] => []
         | (nm, c) :: l' => (walk (dirpath // nm) c ++ walk_children l')%list
         end) es
  end.

End Tree.

(** The state of the machine the organizer runs on: the tree below [/], the
    working directory relative paths are read from, and the log of the
    [shutil.move] calls that returned, oldest first. *)
Record World := mkWorld {
  tree : Node;
  cwd : list string;
  move_log : list (Path * Path)
}.

(** The names from the root directory to [p]; on this file system [//] is
    the root directory too. *)
Definition absolute (w : World) (p : Path) : list string :=
  if PurePath.is_absolute p then parts p else (cwd w ++ parts p)%list.

Definition node_at (w : World) (p : Path) : option Node :=
  Tree.lookup (tree w) (absolute w p).

(** [p.exists()], [p.is_file()], [p.is_dir()] *)
Definition path_exists (w : World) (p : Path) : bool :=
  match node_at w p with Some _ => true | None => false end.

Definition path_is_file (w : World) (p : Path) : bool :=
  match node_at w p with Some (File _ _) => true | _ => false end.

Definition path_is_dir (w : World) (p : Path) : bool :=
  match node_at w p with Some (Dir _) => true | _ => false end.

Definition listdir (w : World) (p : Path) : list (string * Node) :=
  match node_at w p with Some (Dir es) => es | _ => [] end.

(** ** The state-and-error monad of the organizer and the exporter *)

Definition M (A : Type) : Type := World -> result A * World.

Definition ret {A : Type} (a : A) : M A := fun w => (Ok a, w).

Definition raise {A : Type} (e : exn) : M A := fun w => (Raise e, w).

Definition bind {A B : Type} (m : M A) (k : A -> M B) : M B :=
  fun w =>
    match m w with
    | (Ok a, w') => k a w'
    | (Raise e, w') => (Raise e, w')
    end.

Notation "x <- m ;; k" := (bind m (fun x => k))
  (at level 61, m at next level, right associativity).
Notation "m ;;; k" := (bind m (fun _ => k))
  (at level 61, right associativity).

(** [for x in l: f(x)] *)
Fixpoint for_each {A : Type} (f : A -> M unit) (l : list A) : M unit :=
  match l with
  | [] => ret tt
  | x :: l' => f x ;;; for_each f l'
  end.

Definition get_exists (p : Path) : M bool := fun w => (Ok (path_exists w p), w).

(** [p.mkdir(exist_ok=True)] *)
Definition mkdir_exist_ok (p : Path) : M unit :=
  fun w =>
    match node_at w p with
    | Some (Dir _) => (Ok tt, w)
    | Some (File _ _) => (Raise FileExistsError, w)
    | None =>
        match Tree.put (tree w) (absolute w p) (Some (Dir [])) with
        | Ok t => (Ok tt, mkWorld t (cwd w) (move_log w))
        | Raise e => (Raise e, w)
        end
    end.

(** [shutil.move(str(src), str(dst))].  A destination that is a directory
    receives the source under its own name; otherwise the source is renamed
    onto the destination, and a regular file that is already there is
    replaced, as [os.rename] does.  For a source that is not there, the
    rename and then the copy it falls back on fail with the error of the
    lookup. *)
Definition shutil_move (src dst : Path) : M unit :=
  fun w =>
    let real_dst := if path_is_dir w dst then dst // PurePath.name src else dst in
    if path_is_dir w dst && path_exists w real_dst then (Raise ShutilError, w)
    else
      match node_at w src with
      | None => (Raise (Tree.lookup_error (tree w) (absolute w src)), w)
      | Some n =>
          match n, node_at w real_dst with
          | Dir _, Some _ => (Raise FileExistsError, w)
          | _, _ =>
              match Tree.put (tree w) (absolute w src) None with
              | Raise e => (Raise e, w)
              | Ok t1 =>
                  match Tree.put t1 (absolute w real_dst) (Some n) with
                  | Raise e => (Raise e, w)
                  | Ok t2 =>
                      (Ok tt, mkWorld t2 (cwd w) (move_log w ++ [(src, real_dst)])%list)
                  end
              end
          end
      end.

(** [open(p, "w")] followed by writing [text]; [now] is the time of the write. *)
Definition write_text (p : Path) (text : string) (now : Z) : M unit :=
  fun w =>
    match node_at w p with
    | Some (Dir _) => (Raise IsADirectoryError, w)
    | _ =>
        match Tree.put (tree w) (absolute w p) (Some (File text now)) with
        | Ok t => (Ok tt, mkWorld t (cwd w) (move_log w))
        | Raise e => (Raise e, w)
        end
    end.

(** ** File records *)

Record FileInfo := mkInfo {
  name : string;
  relative_path : string;
  full_path : string;
  extension : string;
  category : string;
  ai_hint : string;
  size_bytes : nat;
  modified_time : string
}.

(** ** Scanner *)

(** What the operating system answers to the calls of one scan.  On a file
    system nobody else touches the answers are those of [quiescent] below;
    when files come and go during the scan, [is_file] may still see an entry
    that [stat] no longer finds.  [Path.is_file] answers [False] for an entry
    that is missing and raises the other errors of its [stat], such as
    [PermissionError] below a directory that may not be searched (CPython up
    to 3.13).  [os.walk] is called without [onerror] and raises nothing. *)
Record ScanEnv := mkEnv {
  os_walk : Path -> list (Path * list string * list string);
  iterdir : Path -> result (list Path);
  is_file : Path -> result bool;
  stat : Path -> result stat_result;
  (** [p.resolve()], which raises when the path cannot be resolved, as a
      relative path in a working directory that has been removed. *)
  resolve : Path -> result Path;
  (** [datetime.fromtimestamp(t)], which raises [ValueError], [OverflowError]
      or [OSError] for a time outside the range of [datetime]; the value is
      kept as the text [strftime("%Y-%m-%d %H:%M:%S")] gives for it. *)
  fromtimestamp : Z -> result string
}.

Definition reserved (nm : string) : bool :=
  mem nm ["organized_index.csv"; "organized_index.json"].

Definition get_file_info (env : ScanEnv) (entry root_folder : Path)
  : result (option FileInfo) :=
  if reserved (PurePath.name entry) then Ok None
  else
    let ext := PyStr.lower (PurePath.suffix entry) in
    let category := get_category ext in
    let ai_hint := guess_ai_category entry category in
    match stat env entry with
    | Raise e => Raise e
    | Ok st =>
        let size_bytes := st_size st in
        match fromtimestamp env (st_mtime st) with
        | Raise e => Raise e
        | Ok modified_time =>
            match PurePath.relative_to entry root_folder with
            | None => Raise ValueError
            | Some rel =>
                match resolve env entry with
                | Raise e => Raise e
                | Ok full =>
                    Ok (Some {| name := PurePath.name entry;
                                relative_path := PurePath.str rel;
                                full_path := PurePath.str full;
                                extension := if ext =? "" then "(no extension)" else ext;
                                category := category;
                                ai_hint := ai_hint;
                                size_bytes := size_bytes;
                                modified_time := modified_time |})
                end
            end
        end
    end.

(** The body shared by the two loops of [scan_folder]: one entry, appended
    to [files_info] when it is a file and has a record. *)
Definition scan_entry (env : ScanEnv) (folder_path entry : Path)
  (files_info : list FileInfo) : result (list FileInfo) :=
  match is_file env entry with
  | Raise e => Raise e
  | Ok true =>
      match get_file_info env entry folder_path with
      | Raise e => Raise e
      | Ok (Some info) => Ok (files_info ++ [info])%list
      | Ok None => Ok files_info
      end
  | Ok false => Ok files_info
  end.

Fixpoint scan_entries (env : ScanEnv) (folder_path : Path) (entries : list Path)
  (files_info : list FileInfo) : result (list FileInfo) :=
  match entries with
  | [] => Ok files_info
  | entry :: rest =>
      match scan_entry env folder_path entry files_info with
      | Raise e => Raise e
      | Ok files_info' => scan_entries env folder_path rest files_info'
      end
  end.

Fixpoint scan_walk (env : ScanEnv) (folder_path : Path)
  (steps : list (Path * list string * list string))
  (files_info : list FileInfo) : result (list FileInfo) :=
  match steps with
  | [] => Ok files_info
  | (dirpath, _, filenames) :: rest =>
      match scan_entries env folder_path
              (map (fun filename => dirpath // filename) filenames) files_info with
      | Raise e => Raise e
      | Ok files_info' => scan_walk env folder_path rest files_info'
      end
  end.

Definition scan_folder (env : ScanEnv) (folder_path : Path) (recursive : bool)
  : result (list FileInfo) :=
  if recursive then scan_walk env folder_path (os_walk env folder_path) []
  else
    match iterdir env folder_path with
    | Raise e => Raise e
    | Ok entries => scan_entries env folder_path entries []
    end.

(** The answers of a file system that only this program touches; [fmt] is
    the answer of [datetime] for a modification time. *)
Definition quiescent (fmt : Z -> result string) (w : World) : ScanEnv :=
  {| os_walk := fun top =>
       match node_at w top with
       | Some n => Tree.walk top n
       | None => []
       end;
     iterdir := fun p =>
       match node_at w p with
       | Some (Dir es) => Ok (map (fun e => p // fst e) es)
       | Some (File _ _) => Raise NotADirectoryError
       | None => Raise (Tree.lookup_error (tree w) (absolute w p))
       end;
     is_file := fun p => Ok (path_is_file w p);
     stat := fun p =>
       match node_at w p with
       | Some (File c t) => Ok (mkStat (String.length c) t)
       | Some (Dir _) => Ok (mkStat 0 0)
       | None => Raise (Tree.lookup_error (tree w) (absolute w p))
       end;
     resolve := fun p => Ok (mkPath Slash (absolute w p));
     fromtimestamp := fmt |}.

(** ** Organizer *)

Definition nl : string := String "010"%char EmptyString.

(** [d[k] = d.get(k, 0) + 1] on a dictionary kept in insertion order. *)
Fixpoint dict_incr (k : string) (d : list (string * nat)) : list (string * nat) :=
  match d with
  | [] => [(k, 1)]
  | (k', n) :: d' =>
      if k =? k' then (k', S n) :: d' else (k', n) :: dict_incr k d'
  end.

Definition category_count (files_info : list FileInfo) : list (string * nat) :=
  fold_left (fun d info => dict_incr (category info) d) files_info [].

Definition summary_lines (files_info : list FileInfo) : list string :=
  "Summary by category:" ::
  map (fun cc => "  " ++ fst cc ++ ": " ++ PyStr.of_nat (snd cc) ++ " file(s)")
      (category_count files_info).

(** [f"{base} ({counter}){ext}"] *)
Definition numbered (base : string) (counter : nat) (ext : string) : string :=
  base ++ " (" ++ PyStr.of_nat counter ++ ")" ++ ext.

(** The [while True] loop that looks for an unused numbered name, run for at
    most [fuel] rounds from [counter] on the file system [w]. *)
Fixpoint find_free (w : World) (category_folder : Path) (base ext : string)
  (fuel counter : nat) : option Path :=
  match fuel with
  | 0 => None
  | S fuel' =>
      let new_name := numbered base counter ext in
      let new_dest := category_folder // new_name in
      if negb (path_exists w new_dest) then Some new_dest
      else find_free w category_folder base ext fuel' (S counter)
  end.

(** The loop started at 1 with one round more than the destination folder
    has entries ([find_free_total] shows that this is never exhausted). *)
Definition unique_dest (category_folder dest : Path) : M Path :=
  fun w =>
    let base := PurePath.stem dest in
    let ext := PurePath.suffix dest in
    match find_free w category_folder base ext
            (S (List.length (listdir w category_folder))) 1 with
    | Some new_dest => (Ok new_dest, w)
    | None => (Raise LoopFuelExhausted, w)
    end.

(** The [if dest.exists():] block: the destination itself when it is free,
    the first free numbered name otherwise. *)
Definition choose_dest (category_folder dest : Path) : M Path :=
  taken <- get_exists dest ;;
  if taken : bool then unique_dest category_folder dest else ret dest.

(** The body of the second [for info in files_info] loop. *)
Definition organize_one (root_folder : Path) (info : FileInfo) : M unit :=
  let src := PurePath.Path_of_string (full_path info) in
  let category_folder := root_folder // category info in
  mkdir_exist_ok category_folder ;;;
  let dest := category_folder // PurePath.name src in
  if PurePath.eqb (PurePath.parent src) category_folder then ret tt
  else
    dest <- choose_dest category_folder dest ;;
    shutil_move src dest.

Definition organize_files (root_folder : Path) (files_info : list FileInfo) : M string :=
  match files_info with
  | [] => ret "No files found to organize."
  | _ =>
      let result_lines := summary_lines files_info in
      for_each (organize_one root_folder) files_info ;;;
      let last_line := nl ++ "Files have been organized into category folders." in
      let result_lines := (result_lines ++ [last_line])%list in
      ret (PyStr.join nl result_lines)
  end.

(** ** Exporter *)

Section Exporter.

(** [csv_text l] is the text [csv.DictWriter] writes for the header and the
    rows of [l], [json_text l] the text [json.dump] writes for [l], and [now]
    the time of the export.  [utf8 info] tells whether the row of [info] can
    be encoded in UTF-8, as the file opened with [encoding="utf-8"] requires:
    it cannot when a string of the record holds a surrogate escape, which is
    how Python reads the name of a file whose bytes are not UTF-8.  The text
    of [json.dump] is ASCII, with such characters escaped. *)
Variable utf8 : FileInfo -> bool.
Variable csv_text json_text : list FileInfo -> string.
Variable now : Z.

(** The rows written before the first one that cannot be encoded. *)
Fixpoint encoded_rows (files_info : list FileInfo) : list FileInfo :=
  match files_info with
  | [] => []
  | info :: rest => if utf8 info then info :: encoded_rows rest else []
  end.

(** The [with open(csv_path, "w", ...)] block.  The rows are written and
    encoded one after the other; when one of them raises, the file is closed
    with what was written before it. *)
Definition write_csv (csv_path : Path) (files_info : list FileInfo) : M unit :=
  write_text csv_path (csv_text (encoded_rows files_info)) now ;;;
  if forallb utf8 files_info then ret tt else raise UnicodeEncodeError.

Definition export_reports (folder_path : Path) (files_info : list FileInfo) : M string :=
  match files_info with
  | [] => ret "No files to export."
  | _ =>
      let csv_path := folder_path // "organized_index.csv" in
      let json_path := folder_path // "organized_index.json" in
      write_csv csv_path files_info ;;;
      write_text json_path (json_text files_info) now ;;;
      ret ("Reports created:" ++ nl ++ "  CSV : " ++ PurePath.str csv_path
           ++ nl ++ "  JSON: " ++ PurePath.str json_path)
  end.

End Exporter.

(** ** QueryEngine *)

Definition matches (search_type query_lower : string) (info : FileInfo) : bool :=
  if search_type =? "name" then
    PyStr.contains query_lower (PyStr.lower (name info))
  else if search_type =? "extension" then
    let ext_query := PyStr.lstrip_dot query_lower in
    ext_query =? PyStr.lstrip_dot (PyStr.lower (extension info))
  else if search_type =? "category" then
    (query_lower =? PyStr.lower (category info))
    || (query_lower =? PyStr.lower (ai_hint info))
  else false.

Definition search_files (files_info : list FileInfo) (search_type query : string)
  : list FileInfo :=
  let query_lower := PyStr.lower query in
  fold_left
    (fun results info =>
       if matches search_type query_lower info then (results ++ [info])%list
       else results)
    files_info [].

(** ** Vocabulary of the properties *)

(** [ext] is declared under [category] in [table]. *)
Definition declared (table : list (string * list string)) (category ext : string) : Prop :=
  exists ext_list, In (category, ext_list) table /\ In ext ext_list.

Fixpoint distinct (l : list string) : bool :=
  match l with
  | [] => true
  | x :: l' => negb (mem x l') && distinct l'
  end.

(** The entries a scan visits, in the order it visits them. *)
Definition enumerate (env : ScanEnv) (folder_path : Path) (recursive : bool)
  : result (list Path) :=
  if recursive then
    Ok (flat_map (fun step => map (fun filename => fst (fst step) // filename) (snd step))
                 (os_walk env folder_path))
  else iterdir env folder_path.

(** The record, if any, that a visited entry contributes to the index. *)
Definition record_of (env : ScanEnv) (folder_path entry : Path) : list FileInfo :=
  match is_file env entry with
  | Ok true =>
      match get_file_info env entry folder_path with
      | Ok (Some info) => [info]
      | _ => []
      end
  | _ => []
  end.

(** An entry the scan can read: [is_file] answers, and if the entry is a
    file with a name of its own it can be statted, its modification time is
    one [datetime] can hold, it lies below the scan root and its path can be
    resolved. *)
Definition readable (env : ScanEnv) (folder_path entry : Path) : Prop :=
  exists b,
    is_file env entry = Ok b /\
    (b = true ->
     reserved (PurePath.name entry) = false ->
     exists st modified rel full,
       stat env entry = Ok st /\
       fromtimestamp env (st_mtime st) = Ok modified /\
       PurePath.relative_to entry folder_path = Some rel /\
       resolve env entry = Ok full).

(** What a visited entry contributes when exceptions are kept: a record,
    nothing, or the exception that the loop body raises on it. *)
Definition outcome_of (env : ScanEnv) (folder_path entry : Path)
  : list (result FileInfo) :=
  match is_file env entry with
  | Raise e => [Raise e]
  | Ok true =>
      match get_file_info env entry folder_path with
      | Ok (Some info) => [Ok info]
      | Ok None => []
      | Raise e => [Raise e]
      end
  | Ok false => []
  end.

(** The values of a list of outcomes when none is an exception, and the
    first exception otherwise. *)
Fixpoint collect {A : Type} (l : list (result A)) : result (list A) :=
  match l with
  | [] => Ok []
  | Raise e :: _ => Raise e
  | Ok a :: l' =>
      match collect l' with
      | Ok r => Ok (a :: r)
      | Raise e => Raise e
      end
  end.

(** The answers of [quiescent], except that the file at [gone] has
    disappeared by the time it is statted. *)
Definition disappearing (fmt : Z -> result string) (w : World) (gone : Path) : ScanEnv :=
  let q := quiescent fmt w in
  {| os_walk := os_walk q;
     iterdir := iterdir q;
     is_file := is_file q;
     stat := fun p => if PurePath.eqb p gone then Raise FileNotFoundError else stat q p;
     resolve := resolve q;
     fromtimestamp := fromtimestamp q |}.

(** The answers of [quiescent], except that the entry at [locked] lies in a
    directory that may not be searched. *)
Definition forbidding (fmt : Z -> result string) (w : World) (locked : Path) : ScanEnv :=
  let q := quiescent fmt w in
  {| os_walk := os_walk q;
     iterdir := iterdir q;
     is_file := fun p => if PurePath.eqb p locked then Raise PermissionError else is_file q p;
     stat := fun p => if PurePath.eqb p locked then Raise PermissionError else stat q p;
     resolve := resolve q;
     fromtimestamp := fromtimestamp q |}.

(** ** Sample inputs *)

Definition epoch (t : Z) : result string := Ok "1970-01-01 00:00:00".

(** A [datetime] that ends with the year 9999. *)
Definition until_9999 (t : Z) : result string :=
  if (t <? 253402300800)%Z then Ok "1970-01-01 00:00:00" else Raise ValueError.

(** [/w/r] holds [a.txt] and [b.txt]; the working directory is [/w]. *)
Definition two_files : World :=
  mkWorld (Dir [("w", Dir [("r", Dir [("a.txt", File "alpha" 1);
                                       ("b.txt", File "beta" 2)])])])
          ["w"] [].

Definition vanished_env : ScanEnv :=
  disappearing epoch two_files (PurePath.Path_of_string "/w/r/a.txt").

Definition locked_env : ScanEnv :=
  forbidding epoch two_files (PurePath.Path_of_string "/w/r/a.txt").

(** [/w/r] holds [a.txt] and [far.txt], the second with a modification
    time in the year 10000. *)
Definition far_future : World :=
  mkWorld (Dir [("w", Dir [("r", Dir [("a.txt", File "alpha" 1);
                                       ("far.txt", File "beta" 253402300800)])])])
          ["w"] [].

(** [q] is [p] or lies below it. *)
Definition below (p q : list string) : Prop := exists r, q = (p ++ r)%list.

(** The character [c] does not occur in [s]. *)
Fixpoint absent (c : ascii) (s : string) : bool :=
  match s with
  | EmptyString => true
  | String a s' => negb (Ascii.eqb a c) && absent c s'
  end.

Definition no_slash (s : string) : bool := absent "/" s.

(** A path as [Path_of_string] and [/] build them: no separator inside a
    segment. *)
Definition wf_path (p : Path) : Prop :=
  Forall (fun s => no_slash s = true) (parts p).

(** The index of a scan of [two_files], and the same directory after
    [a.txt] has been deleted behind the program's back. *)
Definition two_files_index : list FileInfo :=
  [ {| name := "a.txt"; relative_path := "a.txt"; full_path := "/w/r/a.txt";
       extension := ".txt"; category := "Documents"; ai_hint := "";
       size_bytes := 5; modified_time := "1970-01-01 00:00:00" |};
    {| name := "b.txt"; relative_path := "b.txt"; full_path := "/w/r/b.txt";
       extension := ".txt"; category := "Documents"; ai_hint := "";
       size_bytes := 4; modified_time := "1970-01-01 00:00:00" |} ].

Definition a_deleted : World :=
  mkWorld (Dir [("w", Dir [("r", Dir [("b.txt", File "beta" 2)])])]) ["w"] [].

(** The text [organize_files] returns when it runs to its end. *)
Definition completion_line : string :=
  nl ++ "Files have been organized into category folders.".

Definition organize_report (files_info : list FileInfo) : string :=
  PyStr.join nl (summary_lines files_info ++ [completion_line])%list.

(** [Path(info["full_path"])], the file a record stands for. *)
Definition source_of (info : FileInfo) : Path :=
  PurePath.Path_of_string (full_path info).

(** [/w/r] holds [report.doc] twice, at the top and in [sub], and a
    [Documents] folder is not there yet. *)
Definition same_name_twice : World :=
  mkWorld (Dir [("w", Dir [("r", Dir [("report.doc", File "first" 1);
                                       ("sub", Dir [("report.doc", File "second" 2)])])])])
          ["w"] [].

Definition report_top : FileInfo :=
  {| name := "report.doc"; relative_path := "report.doc";
     full_path := "/w/r/report.doc"; extension := ".doc"; category := "Documents";
     ai_hint := ""; size_bytes := 5; modified_time := "1970-01-01 00:00:00" |}.

Definition report_sub : FileInfo :=
  {| name := "report.doc"; relative_path := "sub/report.doc";
     full_path := "/w/r/sub/report.doc"; extension := ".doc"; category := "Documents";
     ai_hint := ""; size_bytes := 6; modified_time := "1970-01-01 00:00:00" |}.

(** A scan of [root_folder] followed by [organize_files] on its index, as
    the user interface chains them. *)
Definition scan_then_organize (fmt : Z -> result string) (root_folder : Path)
  (recursive : bool)
  : M string :=
  fun w =>
    match scan_folder (quiescent fmt w) root_folder recursive with
    | Ok files_info => organize_files root_folder files_info w
    | Raise e => (Raise e, w)
    end.

(** [/w/r] holds the single file [a.txt]; the working directory is [/w], so
    that the same folder is both [/w/r] and [r]. *)
Definition one_file : World :=
  mkWorld (Dir [("w", Dir [("r", Dir [("a.txt", File "alpha" 1)])])]) ["w"] [].

(** [/w/r] is an empty directory. *)
Definition empty_folder : World :=
  mkWorld (Dir [("w", Dir [("r", Dir [])])]) ["w"] [].

(** The example of the specification with a picture added: [photo123.xyz],
    [report.doc] and [pic.png] in [/w/r], and the index of its scan. *)
Definition photo_report : World :=
  mkWorld (Dir [("w", Dir [("r", Dir [("photo123.xyz", File "xyz" 1);
                                       ("report.doc", File "text" 2);
                                       ("pic.png", File "png" 3)])])])
          ["w"] [].

Definition photo_report_index : list FileInfo :=
  [ {| name := "photo123.xyz"; relative_path := "photo123.xyz";
       full_path := "/w/r/photo123.xyz"; extension := ".xyz"; category := "Others";
       ai_hint := "Images"; size_bytes := 3; modified_time := "1970-01-01 00:00:00" |};
    {| name := "report.doc"; relative_path := "report.doc";
       full_path := "/w/r/report.doc"; extension := ".doc"; category := "Documents";
       ai_hint := ""; size_bytes := 4; modified_time := "1970-01-01 00:00:00" |};
    {| name := "pic.png"; relative_path := "pic.png";
       full_path := "/w/r/pic.png"; extension := ".png"; category := "Images";
       ai_hint := ""; size_bytes := 3; modified_time := "1970-01-01 00:00:00" |} ].

(** A file or directory name as a file system has them: not empty, not
    [.], without a separator. *)
Definition valid_name (s : string) : Prop :=
  no_slash s = true /\ PurePath.is_segment s = true.

(** [l1] is [l2] with some elements left out, the others in their order. *)
Inductive subseq {A : Type} : list A -> list A -> Prop :=
| subseq_nil : subseq [] []
| subseq_skip (x : A) (l1 l2 : list A) : subseq l1 l2 -> subseq l1 (x :: l2)
| subseq_take (x : A) (l1 l2 : list A) : subseq l1 l2 -> subseq (x :: l1) (x :: l2).

(** [d.get(k, 0)] *)
Definition dict_get (k : string) (d : list (string * nat)) : nat :=
  match Tree.assoc k d with Some n => n | None => 0 end.

(** The number of records of category [c]. *)
Definition records_of_category (c : string) (files_info : list FileInfo) : nat :=
  List.length (filter (fun info => category info =? c) files_info).

(** The two report files of a folder. *)
Definition csv_path_of (folder_path : Path) : Path := folder_path // "organized_index.csv".
Definition json_path_of (folder_path : Path) : Path := folder_path // "organized_index.json".


(** A regular file that a scan records: the names from the root of the file
    system to it, the names from the scan root to it, its content and its
    modification time. *)
Record Found := mkFound {
  found_full : list string;
  found_rel : list string;
  found_content : string;
  found_mtime : Z
}.

(** The record of a found file, [modified] being its formatted time. *)
Definition record_for (modified : string) (f : Found) : FileInfo :=
  let nm := last (found_rel f) "" in
  let ext := PyStr.lower (PurePath.suffix_of nm) in
  {| name := nm;
     relative_path := PurePath.str (mkPath Relative (found_rel f));
     full_path := PurePath.str (mkPath Slash (found_full f));
     extension := if ext =? "" then "(no extension)" else ext;
     category := get_category ext;
     ai_hint := guess_ai_category (mkPath Relative [nm]) (get_category ext);
     size_bytes := String.length (found_content f);
     modified_time := modified |}.

(** The record of a found file, or the exception of [datetime] for its
    modification time. *)
Definition item_for (fmt : Z -> result string) (f : Found) : result FileInfo :=
  match fmt (found_mtime f) with
  | Ok modified => Ok (record_for modified f)
  | Raise e => Raise e
  end.

(** [/w/r] holds [a.txt], a report file and a sub-directory with another
    file. *)
Definition with_report : World :=
  mkWorld (Dir [("w", Dir [("r", Dir [("a.txt", File "alpha" 1);
                                       ("organized_index.csv", File "old" 2);
                                       ("sub", Dir [("b.JPG", File "beta" 3)])])])])
          ["w"] [].

(** A tree as a file system keeps it: in every directory the names are
    valid and distinct. *)
#[warnings="-register-all"]
Inductive wf_node : Node -> Prop :=
| wf_File (c : string) (t : Z) : wf_node (File c t)
| wf_Dir (es : list (string * Node)) :
    Forall valid_name (map fst es) ->
    NoDup (map fst es) ->
    Forall (fun e => wf_node (snd e)) es ->
    wf_node (Dir es).

(** The regular files, other than report files, of one directory listing
    [es] found at the absolute path [full], which is [rel] below the scan
    root, in listing order. *)
Definition files_here (full rel : list string) (es : list (string * Node)) : list Found :=
  flat_map (fun e =>
              match snd e with
              | File c t =>
                  if reserved (fst e) then []
                  else [mkFound (full ++ [fst e]) (rel ++ [fst e]) c t]
              | Dir _ => []
              end) es.

(** The files of the tree [n] in the order of a recursive scan: the files
    of a directory first, then its sub-directories in listing order. *)
Fixpoint files_below (full rel : list string) (n : Node) : list Found :=
  match n with
  | File _ _ => []
  | Dir es =>
      (files_here full rel es ++
       flat_map (fun e => files_below (full ++ [fst e]) (rel ++ [fst e]) (snd e)) es)%list
  end.

(** The files a scan of the directory at [full], of listing [es], finds. *)
Definition files_found (recursive : bool) (full : list string) (es : list (string * Node))
  : list Found :=
  if recursive then files_below full [] (Dir es) else files_here full [] es.

(** A tree in which a recursive scan finds no file to record. *)
Definition no_records (n : Node) : Prop :=
  forall full rel, files_below full rel n = [].

(** A folder as a run of the organizer leaves it: at its top only report
    files and directories; in each of these directories only report files,
    files whose category is the name of the directory, and sub-directories
    without files to record. *)
Definition organized (n : Node) : Prop :=
  exists es,
    n = Dir es /\
    forall e, In e es ->
      match snd e with
      | File _ _ => reserved (fst e) = true
      | Dir es' =>
          forall e', In e' es' ->
            match snd e' with
            | File _ _ =>
                reserved (fst e') = true \/
                get_category (PyStr.lower (PurePath.suffix_of (fst e'))) = fst e
            | Dir _ => no_records (snd e')
            end
      end.

(** [/w/r] after a run: [Documents] holds two files, [sub] is left empty. *)
Definition organized_folder : World :=
  mkWorld (Dir [("w", Dir [("r", Dir [("sub", Dir []);
                                       ("organized_index.csv", File "old" 2);
                                       ("Documents", Dir [("report.doc", File "first" 1);
                                                          ("report (1).doc", File "second" 2)]);
                                       ("Others", Dir [("photo123.xyz", File "xyz" 3)])])])])
          ["w"] [].

(** The [ai_counts] dictionary that [on_scan_pressed] builds for its log:
    the hints of the ["Others"] records that have one, counted. *)
Definition ai_counts (files_info : list FileInfo) : list (string * nat) :=
  fold_left
    (fun d info =>
       if (category info =? "Others") && negb (ai_hint info =? "")
       then dict_incr (ai_hint info) d
       else d)
    files_info [].

(** The number of ["Others"] records whose hint is [h]. *)
Definition hinted (h : string) (files_info : list FileInfo) : nat :=
  List.length (filter (fun info => (category info =? "Others") && (ai_hint info =? h))
                      files_info).



(** In the examples the character 255 stands for a surrogate escape, and a
    record can be encoded in UTF-8 when none of its strings holds one.  The
    index is that of [two_files] with the record of a third file whose name
    is not UTF-8. *)
Definition surrogate : ascii := ascii_of_nat 255.

Definition no_surrogate (info : FileInfo) : bool :=
  absent surrogate (name info) && absent surrogate (relative_path info)
  && absent surrogate (full_path info) && absent surrogate (extension info).


(** The entries that the recursive loop visits along the steps of a walk. *)
Definition walk_entries (steps : list (Path * list string * list string)) : list Path :=
  flat_map (fun step => map (fun filename => fst (fst step) // filename) (snd step)) steps.

(** A path as a scan of [folder_path] builds them with [/]: names added to
    [folder_path], or an absolute path of names. *)
Definition built_from (folder_path entry : Path) : Prop :=
  (root entry = root folder_path /\
   exists segs, parts entry = (parts folder_path ++ segs)%list /\ Forall valid_name segs) \/
  (PurePath.is_absolute entry = true /\ Forall valid_name (parts entry)).

(** * Properties *)

(** ** Strings *)

Section StringFacts.


Lemma append_assoc (a b c : string) : (a ++ b) ++ c = a ++ b ++ c.
Proof. induction a as [|x a IH]; simpl; [reflexivity | now rewrite IH]. Qed.

Lemma append_inv_head (a x y : string) : a ++ x = a ++ y -> x = y.
Proof.
  induction a as [|c a IH]; simpl; intros H; [exact H|].
  injection H as H. auto.
Qed.

Lemma prefix_occurs (k s : string) :
  String.prefix k s = true <-> exists b, s = k ++ b.
Proof.
  revert s. induction k as [|c k IH]; intros s.
  - split; [intros _; exists s; reflexivity | destruct s; reflexivity].
  - destruct s as [|d s]; simpl.
    + split; [discriminate | intros [b Hb]; discriminate].
    + destruct (Ascii.ascii_dec c d) as [->|Hne].
      * rewrite IH. split; intros [b Hb]; exists b.
        -- now rewrite Hb.
        -- simpl in Hb. now injection Hb.
      * split; [discriminate|]. intros [b Hb]. simpl in Hb.
        injection Hb as Hd _. congruence.
Qed.

(** The boolean test [k in s] decides [PyStr.occurs]. *)
Lemma contains_occurs (k s : string) :
  PyStr.contains k s = true <-> PyStr.occurs k s.
Proof.
  unfold PyStr.occurs. induction s as [|c s IH].
  - cbn [PyStr.contains]. rewrite orb_false_r, prefix_occurs. split.
    + intros [b Hb]. exists "", b. exact Hb.
    + intros [a [b Hab]]. destruct a; [exists b; exact Hab | discriminate].
  - cbn [PyStr.contains]. rewrite orb_true_iff, IH, prefix_occurs. split.
    + intros [[b Hb] | [a [b Hab]]].
      * exists "", b. exact Hb.
      * exists (String c a), b. simpl. now rewrite Hab.
    + intros [a [b Hab]]. destruct a as [|d a].
      * left. exists b. exact Hab.
      * right. exists a, b. simpl in Hab. now injection Hab.
Qed.

Lemma any_in_occurs (keys : list string) (s : string) :
  any_in keys s = true <-> exists k, In k keys /\ PyStr.occurs k s.
Proof.
  unfold any_in. rewrite existsb_exists.
  split; intros [k [Hin Hk]]; exists k; split; auto; now apply contains_occurs.
Qed.


Lemma mem_In (x : string) (l : list string) : mem x l = true <-> In x l.
Proof.
  unfold mem. rewrite existsb_exists. split.
  - intros [y [Hin Heq]]. apply String.eqb_eq in Heq. now subst.
  - intros Hin. exists x. split; [exact Hin | apply String.eqb_refl].
Qed.

End StringFacts.


(** ** Classifier *)

Lemma distinct_NoDup (l : list string) : distinct l = true -> NoDup l.
Proof.
  induction l as [|x l IH]; simpl; intros H; constructor.
  - apply andb_true_iff in H as [H _]. rewrite negb_true_iff in H.
    intros Hin. apply mem_In in Hin. congruence.
  - apply IH. now apply andb_true_iff in H as [_ H].
Qed.

Lemma first_category_none (table : list (string * list string)) (ext : string) :
  (forall category, ~ declared table category ext) ->
  first_category table ext = "Others".
Proof.
  induction table as [|[c l] table IH]; simpl; intros H; [reflexivity|].
  destruct (mem ext l) eqn:Hm.
  - exfalso. apply (H c). exists l. split; [now left | now apply mem_In].
  - apply IH. intros c' [l' [Hin Hext]]. apply (H c'). exists l'.
    split; [now right | exact Hext].
Qed.

Lemma first_category_first (pre post : list (string * list string))
  (category : string) (ext_list : list string) (ext : string) :
  In ext ext_list ->
  (forall c l, In (c, l) pre -> ~ In ext l) ->
  first_category (pre ++ (category, ext_list) :: post)%list ext = category.
Proof.
  intros Hin. induction pre as [|[c l] pre IH]; simpl; intros Hpre.
  - apply mem_In in Hin. now rewrite Hin.
  - destruct (mem ext l) eqn:Hm.
    + exfalso. apply (Hpre c l); [now left | now apply mem_In].
    + apply IH. intros c' l' H. apply (Hpre c' l'). now right.
Qed.

Lemma first_category_declared (table : list (string * list string))
  (category ext : string) :
  NoDup (flat_map snd table) ->
  declared table category ext ->
  first_category table ext = category.
Proof.
  induction table as [|[c l] table IH]; simpl; intros Hnd [el [Hin Hext]].
  - contradiction.
  - destruct (mem ext l) eqn:Hm.
    + destruct Hin as [Heq | Hin]; [congruence|].
      exfalso. apply mem_In in Hm.
      assert (Hdisj : forall x, In x l -> In x (flat_map snd table) -> False).
      { clear -Hnd. induction l as [|y l IHl]; simpl in *; [tauto|].
        inversion Hnd as [|? ? Hy Hnd']; subst.
        intros x [-> | Hx] Hx'.
        - apply Hy, in_or_app. now right.
        - now apply (IHl Hnd' x). }
      apply (Hdisj ext Hm). apply in_flat_map. exists (category, el).
      split; [exact Hin | exact Hext].
    + destruct Hin as [Heq | Hin].
      * injection Heq as -> ->. apply mem_In in Hext. congruence.
      * apply IH.
        -- clear -Hnd. induction l as [|y l IHl]; simpl in *; [exact Hnd|].
           inversion Hnd; auto.
        -- exists el. split; [exact Hin | exact Hext].
Qed.

Lemma CATEGORY_MAP_NoDup : NoDup (flat_map snd CATEGORY_MAP).
Proof. apply distinct_NoDup. vm_compute. reflexivity. Qed.

(** C7. [get_category] is a total function of the lower-cased extension:
    an extension that, lower-cased, is declared in the category table is
    mapped to the category it is declared under, which is the first category
    in declaration order whose list holds it; one that is declared nowhere
    is mapped to ["Others"]; and two extensions that agree up to letter case
    get the same category. *)
Theorem get_category_table :
  (forall extension category,
      declared CATEGORY_MAP category (PyStr.lower extension) ->
      get_category extension = category) /\
  (forall extension pre category ext_list post,
      CATEGORY_MAP = (pre ++ (category, ext_list) :: post)%list ->
      In (PyStr.lower extension) ext_list ->
      (forall c l, In (c, l) pre -> ~ In (PyStr.lower extension) l) ->
      get_category extension = category) /\
  (forall extension,
      (forall category, ~ declared CATEGORY_MAP category (PyStr.lower extension)) ->
      get_category extension = "Others") /\
  (forall e1 e2, PyStr.lower e1 = PyStr.lower e2 -> get_category e1 = get_category e2).
Proof.
  unfold get_category. repeat split.
  - intros extension category H.
    apply first_category_declared; [apply CATEGORY_MAP_NoDup | exact H].
  - intros extension pre category ext_list post -> Hin Hpre.
    now apply first_category_first.
  - intros extension H. now apply first_category_none.
  - intros e1 e2 H. cbv zeta. now rewrite H.
Qed.

Example get_category_JPG : get_category ".JPG" = "Images".
Proof. reflexivity. Qed.

Example get_category_xyz : get_category ".xyz" = "Others".
Proof. reflexivity. Qed.

Example get_category_empty : get_category "" = "Others".
Proof. reflexivity. Qed.

(** ** The keyword heuristic *)

Lemma first_group_first (pre post : list (string * list string))
  (g : string) (keys : list string) (s : string) :
  (exists k, In k keys /\ PyStr.occurs k s) ->
  (forall g' keys' k, In (g', keys') pre -> In k keys' -> ~ PyStr.occurs k s) ->
  first_group (pre ++ (g, keys) :: post)%list s = g.
Proof.
  intros Hk. induction pre as [|[g' keys'] pre IH]; simpl; intros Hpre.
  - apply any_in_occurs in Hk. now rewrite Hk.
  - destruct (any_in keys' s) eqn:Hany.
    + exfalso. apply any_in_occurs in Hany as [k [Hin Hocc]].
      apply (Hpre g' keys' k); auto.
    + apply IH. intros g2 keys2 k H. apply (Hpre g2 keys2 k). now right.
Qed.

Lemma first_group_none (groups : list (string * list string)) (s : string) :
  (forall g keys k, In (g, keys) groups -> In k keys -> ~ PyStr.occurs k s) ->
  first_group groups s = "".
Proof.
  induction groups as [|[g keys] groups IH]; simpl; intros H; [reflexivity|].
  destruct (any_in keys s) eqn:Hany.
  - exfalso. apply any_in_occurs in Hany as [k [Hin Hocc]].
    apply (H g keys k); auto.
  - apply IH. intros g' keys' k Hin. apply (H g' keys' k). now right.
Qed.

(** C8. On a file whose base category is ["Others"], [guess_ai_category]
    is the first-match rule over the four keyword groups in the order
    Images, Videos, Documents, Audio, applied to the lower-cased file name:
    it returns the first group one of whose keywords occurs in the name, so
    an earlier group wins over a later one, and the empty string when no
    keyword of any group occurs. *)
Theorem guess_ai_category_priority :
  map fst KEYWORD_GROUPS = ["Images"; "Videos"; "Documents"; "Audio"] /\
  (forall entry, guess_ai_category entry "Others" = aiHint_spec (PurePath.name entry)) /\
  (forall entry pre g keys post,
      KEYWORD_GROUPS = (pre ++ (g, keys) :: post)%list ->
      (exists k, In k keys /\ PyStr.occurs k (PyStr.lower (PurePath.name entry))) ->
      (forall g' keys' k, In (g', keys') pre -> In k keys' ->
                          ~ PyStr.occurs k (PyStr.lower (PurePath.name entry))) ->
      guess_ai_category entry "Others" = g) /\
  (forall entry,
      (forall g keys k, In (g, keys) KEYWORD_GROUPS -> In k keys ->
                        ~ PyStr.occurs k (PyStr.lower (PurePath.name entry))) ->
      guess_ai_category entry "Others" = "").
Proof.
  assert (Hspec : forall entry,
             guess_ai_category entry "Others" = aiHint_spec (PurePath.name entry)).
  { intros entry. unfold guess_ai_category, aiHint_spec. simpl.
    repeat match goal with |- context [any_in ?l ?s] => destruct (any_in l s) end;
      reflexivity. }
  split; [reflexivity|]. split; [exact Hspec|]. split.
  - intros entry pre g keys post Heq Hk Hpre.
    rewrite Hspec. unfold aiHint_spec. rewrite Heq. now apply first_group_first.
  - intros entry H. rewrite Hspec. now apply first_group_none.
Qed.

Example guess_photo_report :
  guess_ai_category (PurePath.Path_of_string "/r/Photo_Report.xyz") "Others" = "Images".
Proof. reflexivity. Qed.

Example guess_song_notes :
  guess_ai_category (PurePath.Path_of_string "/r/song_notes.bin") "Others" = "Documents".
Proof. reflexivity. Qed.

Example guess_nothing :
  guess_ai_category (PurePath.Path_of_string "/r/data.bin") "Others" = "".
Proof. reflexivity. Qed.

(** ** QueryEngine *)

Lemma search_files_filter (files_info : list FileInfo) (search_type query : string) :
  search_files files_info search_type query
  = filter (matches search_type (PyStr.lower query)) files_info.
Proof.
  unfold search_files.
  set (f := matches search_type (PyStr.lower query)).
  assert (H : forall l acc,
             fold_left (fun results info =>
                          if f info then (results ++ [info])%list else results) l acc
             = (acc ++ filter f l)%list).
  { induction l as [|x l IH]; intros acc; simpl.
    - now rewrite app_nil_r.
    - rewrite IH. destruct (f x); [|reflexivity].
      now rewrite <- app_assoc. }
  now rewrite H.
Qed.

(** C10. For a search kind other than ["name"], ["extension"] and
    ["category"], [search_files] returns the empty list, whatever the index
    and the query are. *)
Theorem search_files_unknown_kind (files_info : list FileInfo) (search_type query : string) :
  search_type <> "name" -> search_type <> "extension" -> search_type <> "category" ->
  search_files files_info search_type query = [].
Proof.
  intros Hn He Hc. rewrite search_files_filter.
  induction files_info as [|info l IH]; simpl; [reflexivity|].
  unfold matches at 1.
  apply String.eqb_neq in Hn, He, Hc. now rewrite Hn, He, Hc.
Qed.

(** ** Scanner *)

Section ScanInvariant.

Variable env : ScanEnv.
Variable folder_path : Path.
Variable P : FileInfo -> Prop.
Hypothesis get_file_info_P :
  forall entry info, get_file_info env entry folder_path = Ok (Some info) -> P info.

Lemma scan_entries_Forall (entries : list Path) (acc files_info : list FileInfo) :
  Forall P acc ->
  scan_entries env folder_path entries acc = Ok files_info ->
  Forall P files_info.
Proof.
  revert acc. induction entries as [|entry rest IH]; simpl; intros acc Hacc H.
  - injection H as <-. exact Hacc.
  - unfold scan_entry in H. destruct (is_file env entry) as [[|]|e0]; [|eauto|discriminate].
    destruct (get_file_info env entry folder_path) as [[info|]|e] eqn:Hinfo;
      [|eauto|discriminate].
    apply (IH _ (proj2 (Forall_app _ _ _) (conj Hacc (Forall_cons _ (get_file_info_P _ _ Hinfo) (Forall_nil _)))) H).
Qed.

Lemma scan_walk_Forall (steps : list (Path * list string * list string))
  (acc files_info : list FileInfo) :
  Forall P acc ->
  scan_walk env folder_path steps acc = Ok files_info ->
  Forall P files_info.
Proof.
  revert acc. induction steps as [|[[dirpath dirs] files] rest IH]; simpl; intros acc Hacc H.
  - injection H as <-. exact Hacc.
  - destruct (scan_entries env folder_path _ acc) as [acc'|e] eqn:Hs; [|discriminate].
    eapply IH; [|exact H]. eapply scan_entries_Forall; eauto.
Qed.

Lemma scan_folder_Forall (recursive : bool) (files_info : list FileInfo) :
  scan_folder env folder_path recursive = Ok files_info -> Forall P files_info.
Proof.
  unfold scan_folder. destruct recursive.
  - apply scan_walk_Forall. constructor.
  - destruct (iterdir env folder_path) as [entries|e]; [|discriminate].
    apply scan_entries_Forall. constructor.
Qed.

End ScanInvariant.

Lemma guess_ai_category_not_Others (entry : Path) (base_category : string) :
  base_category <> "Others" -> guess_ai_category entry base_category = "".
Proof.
  intros H. unfold guess_ai_category.
  apply String.eqb_neq in H. now rewrite H.
Qed.

(** The fields of a record that [get_file_info] fills from the classifier. *)
Lemma get_file_info_classified (env : ScanEnv) (entry root_folder : Path) (info : FileInfo) :
  get_file_info env entry root_folder = Ok (Some info) ->
  category info = get_category (PyStr.lower (PurePath.suffix entry)) /\
  ai_hint info = guess_ai_category entry (category info) /\
  name info = PurePath.name entry.
Proof.
  unfold get_file_info. destruct (reserved _); [discriminate|].
  destruct (stat env entry); [|discriminate].
  destruct (fromtimestamp env _); [|discriminate].
  destruct (PurePath.relative_to entry root_folder); [|discriminate].
  destruct (resolve env entry); [|discriminate].
  intros H. injection H as <-. simpl. auto.
Qed.

(** C9. In every record of every index a scan returns, [ai_hint] is the
    empty string unless [category] is ["Others"]. *)
Theorem scan_ai_hint_only_on_Others
  (env : ScanEnv) (folder_path : Path) (recursive : bool) (files_info : list FileInfo)
  (info : FileInfo) :
  scan_folder env folder_path recursive = Ok files_info ->
  In info files_info ->
  category info <> "Others" -> ai_hint info = "".
Proof.
  intros Hscan. revert info.
  apply (proj1 (Forall_forall
                  (fun info => category info <> "Others" -> ai_hint info = "") files_info)).
  apply (scan_folder_Forall env folder_path
           (fun info => category info <> "Others" -> ai_hint info = "")) with (recursive := recursive);
    [|exact Hscan].
  intros entry info H Hcat.
  apply get_file_info_classified in H as [_ [-> _]].
  now apply guess_ai_category_not_Others.
Qed.

Lemma first_category_range (table : list (string * list string)) (ext : string) :
  In (first_category table ext) ("Others" :: map fst table).
Proof.
  induction table as [|[c l] table IH]; simpl; [now left|].
  destruct (mem ext l); [right; now left|].
  destruct IH as [IH|IH]; [now left | right; now right].
Qed.

Lemma guess_ai_category_range (entry : Path) (base_category : string) :
  In (guess_ai_category entry base_category) [""; "Images"; "Videos"; "Documents"; "Audio"].
Proof.
  unfold guess_ai_category.
  destruct (negb _); [now left|]. cbv zeta.
  repeat match goal with |- context [any_in ?l ?s] => destruct (any_in l s) end;
    simpl; tauto.
Qed.

(** On a record filled by the classifier, the case-insensitive test of the
    ["category"] search against ["Images"] is an exact test. *)
Lemma matches_Images_exact (info : FileInfo) (ext : string) (entry : Path) :
  category info = get_category ext ->
  ai_hint info = guess_ai_category entry (category info) ->
  matches "category" (PyStr.lower "Images") info
  = (category info =? "Images")
    || ((category info =? "Others") && (ai_hint info =? "Images")).
Proof.
  intros Hc Hh. unfold matches. cbn [String.eqb Ascii.eqb Bool.eqb].
  destruct (String.eqb_spec (category info) "Others") as [HO|HO].
  - rewrite Hh, HO.
    pose proof (guess_ai_category_range entry "Others") as Hr.
    simpl in Hr.
    destruct Hr as [<-|[<-|[<-|[<-|[<-|[]]]]]]; reflexivity.
  - rewrite Hh, (guess_ai_category_not_Others _ _ HO).
    pose proof (first_category_range CATEGORY_MAP (PyStr.lower ext)) as Hr.
    fold (get_category ext) in Hr. rewrite <- Hc in Hr. simpl in Hr.
    repeat (destruct Hr as [<-|Hr]; [reflexivity|]). contradiction.
Qed.

(** C6. A ["category"] search returns the records whose [category] or whose
    [ai_hint] equals the query up to letter case, in index order (it is the
    [filter] of the index by that test); and on an index a scan produced, the
    search for ["Images"] returns exactly the records of category ["Images"]
    and the ["Others"] records whose hint is ["Images"]. *)
Theorem search_files_category :
  (forall files_info query,
      search_files files_info "category" query
      = filter (fun info =>
                  (PyStr.lower query =? PyStr.lower (category info))
                  || (PyStr.lower query =? PyStr.lower (ai_hint info)))
               files_info) /\
  (forall env folder_path recursive files_info,
      scan_folder env folder_path recursive = Ok files_info ->
      search_files files_info "category" "Images"
      = filter (fun info =>
                  (category info =? "Images")
                  || ((category info =? "Others") && (ai_hint info =? "Images")))
               files_info).
Proof.
  split.
  - intros files_info query. now rewrite search_files_filter.
  - intros env folder_path recursive files_info Hscan.
    rewrite search_files_filter. apply filter_ext_in.
    apply (proj1 (Forall_forall
                    (fun info => matches "category" (PyStr.lower "Images") info = _)
                    files_info)).
    apply (scan_folder_Forall env folder_path) with (recursive := recursive);
      [|exact Hscan].
    intros entry info H.
    apply get_file_info_classified in H as [Hc [Hh _]].
    now apply matches_Images_exact with (ext := PyStr.lower (PurePath.suffix entry)) (entry := entry).
Qed.

Lemma scan_entries_app (env : ScanEnv) (folder_path : Path) (l1 l2 : list Path)
  (acc : list FileInfo) :
  scan_entries env folder_path (l1 ++ l2)%list acc
  = match scan_entries env folder_path l1 acc with
    | Ok acc' => scan_entries env folder_path l2 acc'
    | Raise e => Raise e
    end.
Proof.
  revert acc. induction l1 as [|x l1 IH]; intros acc; simpl; [reflexivity|].
  destruct (scan_entry env folder_path x acc); [apply IH | reflexivity].
Qed.

(** Both loops of [scan_folder] are the same loop over the visited entries. *)
Lemma scan_folder_enumerate (env : ScanEnv) (folder_path : Path) (recursive : bool) :
  scan_folder env folder_path recursive
  = match enumerate env folder_path recursive with
    | Ok entries => scan_entries env folder_path entries []
    | Raise e => Raise e
    end.
Proof.
  unfold scan_folder, enumerate. destruct recursive; [|reflexivity].
  generalize (@nil FileInfo) as acc.
  induction (os_walk env folder_path) as [|[[dirpath dirs] files] steps IH];
    intros acc; simpl; [reflexivity|].
  rewrite scan_entries_app.
  destruct (scan_entries env folder_path _ acc); [apply IH | reflexivity].
Qed.

(** The loop of a scan, with the exceptions kept: the records of the
    visited entries up to the first exception. *)
Lemma scan_entries_collect (env : ScanEnv) (folder_path : Path) (entries : list Path)
  (acc : list FileInfo) :
  scan_entries env folder_path entries acc
  = match collect (flat_map (outcome_of env folder_path) entries) with
    | Ok l => Ok (acc ++ l)%list
    | Raise e => Raise e
    end.
Proof.
  revert acc. induction entries as [|x l IH]; intros acc; simpl.
  - now rewrite app_nil_r.
  - set (rest := flat_map (outcome_of env folder_path) l) in *.
    unfold scan_entry, outcome_of.
    destruct (is_file env x) as [[|]|e]; [| apply IH | reflexivity].
    destruct (get_file_info env x folder_path) as [[info|]|e]; simpl;
      [| apply IH | reflexivity].
    rewrite IH. destruct (collect rest); [|reflexivity].
    now rewrite <- app_assoc.
Qed.

Lemma scan_folder_collect (env : ScanEnv) (folder_path : Path) (recursive : bool)
  (entries : list Path) :
  enumerate env folder_path recursive = Ok entries ->
  scan_folder env folder_path recursive
  = collect (flat_map (outcome_of env folder_path) entries).
Proof.
  intros H. rewrite scan_folder_enumerate, H, scan_entries_collect.
  now destruct (collect _).
Qed.

Lemma collect_app {A : Type} (l1 l2 : list (result A)) :
  collect (l1 ++ l2)%list
  = match collect l1 with
    | Ok r1 =>
        match collect l2 with
        | Ok r2 => Ok (r1 ++ r2)%list
        | Raise e => Raise e
        end
    | Raise e => Raise e
    end.
Proof.
  induction l1 as [|[a|e] l1 IH]; simpl; [now destruct (collect l2) | | reflexivity].
  rewrite IH. destruct (collect l1); [|reflexivity]. now destruct (collect l2).
Qed.

Lemma collect_map_Ok {A : Type} (l : list A) : collect (map Ok l) = Ok l.
Proof. induction l as [|a l IH]; simpl; [reflexivity | now rewrite IH]. Qed.

Lemma collect_In {A : Type} (l : list (result A)) (r : list A) :
  collect l = Ok r -> l = map Ok r.
Proof.
  revert r. induction l as [|[a|e] l IH]; simpl; intros r H.
  - now injection H as <-.
  - destruct (collect l) as [r'|e]; [|discriminate]. injection H as <-.
    simpl. now rewrite (IH r').
  - discriminate.
Qed.

Lemma outcome_of_readable (env : ScanEnv) (folder_path entry : Path) :
  readable env folder_path entry ->
  outcome_of env folder_path entry = map Ok (record_of env folder_path entry).
Proof.
  unfold readable, outcome_of, record_of. intros [b [-> H]].
  destruct b; [|reflexivity]. unfold get_file_info in *.
  destruct (reserved (PurePath.name entry)); [reflexivity|].
  destruct (H eq_refl eq_refl) as [st [modified [rel [full [-> [-> [-> ->]]]]]]].
  reflexivity.
Qed.

Lemma outcomes_readable (env : ScanEnv) (folder_path : Path) (entries : list Path) :
  (forall e, In e entries -> readable env folder_path e) ->
  flat_map (outcome_of env folder_path) entries
  = map Ok (flat_map (record_of env folder_path) entries).
Proof.
  induction entries as [|x l IH]; intros H; simpl; [reflexivity|].
  rewrite map_app, outcome_of_readable by (apply H; now left).
  now rewrite IH by (intros e He; apply H; now right).
Qed.

(** C2, as the code has it.  Entries for which [is_file] answers [False]
    and the two report files contribute nothing to the index, and when every
    visited entry can be read the scan returns exactly the records of the
    entries, in visiting order.  No call of the loop body is guarded: the
    first visited entry on which [is_file] raises, or which is a file to
    record and on which [stat] or [datetime.fromtimestamp] raises, ends the
    scan with that exception, and no index is returned. *)
Theorem scan_folder_stat_failure
  (env : ScanEnv) (folder_path : Path) (recursive : bool) (entries : list Path) :
  enumerate env folder_path recursive = Ok entries ->
  ((forall e, In e entries -> readable env folder_path e) ->
   scan_folder env folder_path recursive
   = Ok (flat_map (record_of env folder_path) entries)) /\
  (forall e, is_file env e = Ok false \/ reserved (PurePath.name e) = true ->
             record_of env folder_path e = []) /\
  (forall pre e post err,
      entries = (pre ++ e :: post)%list ->
      (forall e', In e' pre -> readable env folder_path e') ->
      is_file env e = Raise err \/
      (is_file env e = Ok true /\
       reserved (PurePath.name e) = false /\
       (stat env e = Raise err \/
        exists st, stat env e = Ok st /\ fromtimestamp env (st_mtime st) = Raise err)) ->
      scan_folder env folder_path recursive = Raise err).
Proof.
  intros Henum. rewrite (scan_folder_collect _ _ _ _ Henum). repeat split.
  - intros H. now rewrite outcomes_readable, collect_map_Ok.
  - intros e [H|H]; unfold record_of, get_file_info; rewrite H;
      [reflexivity | now destruct (is_file env e) as [[|]|]].
  - intros pre e post err -> Hpre Hfail.
    rewrite flat_map_app, collect_app, outcomes_readable, collect_map_Ok by exact Hpre.
    assert (He : outcome_of env folder_path e = [Raise err]).
    { unfold outcome_of, get_file_info.
      destruct Hfail as [-> | [-> [-> [-> | [st [-> ->]]]]]]; reflexivity. }
    cbn [flat_map]. now rewrite He.
Qed.

Lemma scan_folder_stat_failure_witness :
  scan_folder (quiescent epoch two_files) (PurePath.Path_of_string "/w/r") true
  = Ok two_files_index /\
  scan_folder vanished_env (PurePath.Path_of_string "/w/r") true = Raise FileNotFoundError /\
  scan_folder locked_env (PurePath.Path_of_string "/w/r") false = Raise PermissionError /\
  scan_folder (quiescent until_9999 far_future) (PurePath.Path_of_string "/w/r") true
  = Raise ValueError.
Proof.
  split; [|split; [|split]].
  - refine (eq_trans
              (proj1 (scan_folder_stat_failure (quiescent epoch two_files)
                        (PurePath.Path_of_string "/w/r") true
                        [PurePath.Path_of_string "/w/r/a.txt";
                         PurePath.Path_of_string "/w/r/b.txt"] eq_refl) _)
              eq_refl).
    intros e [<-|[<-|[]]]; exists true; (split; [reflexivity|]);
      intros _ _; eexists; eexists; eexists; eexists; repeat split; reflexivity.
  - apply (proj2 (proj2 (scan_folder_stat_failure vanished_env
                           (PurePath.Path_of_string "/w/r") true
                           [PurePath.Path_of_string "/w/r/a.txt";
                            PurePath.Path_of_string "/w/r/b.txt"] eq_refl))
             [] (PurePath.Path_of_string "/w/r/a.txt")
             [PurePath.Path_of_string "/w/r/b.txt"] FileNotFoundError).
    + reflexivity.
    + intros e' [].
    + right. split; [reflexivity|]. split; [reflexivity|]. now left.
  - apply (proj2 (proj2 (scan_folder_stat_failure locked_env
                           (PurePath.Path_of_string "/w/r") false
                           [PurePath.Path_of_string "/w/r/a.txt";
                            PurePath.Path_of_string "/w/r/b.txt"] eq_refl))
             [] (PurePath.Path_of_string "/w/r/a.txt")
             [PurePath.Path_of_string "/w/r/b.txt"] PermissionError).
    + reflexivity.
    + intros e' [].
    + now left.
  - apply (proj2 (proj2 (scan_folder_stat_failure (quiescent until_9999 far_future)
                           (PurePath.Path_of_string "/w/r") true
                           [PurePath.Path_of_string "/w/r/a.txt";
                            PurePath.Path_of_string "/w/r/far.txt"] eq_refl))
             [PurePath.Path_of_string "/w/r/a.txt"]
             (PurePath.Path_of_string "/w/r/far.txt") [] ValueError).
    + reflexivity.
    + intros e' [<-|[]]. exists true. split; [reflexivity|].
      intros _ _. eexists; eexists; eexists; eexists; repeat split; reflexivity.
    + right. split; [reflexivity|]. split; [reflexivity|]. right.
      eexists. split; reflexivity.
Defined.

(** C2, the claim as stated, fails: [a.txt] is listed and passes [is_file],
    its [stat] raises because the file is gone, [b.txt] can be statted, and
    the scan returns no index at all, in either mode. *)
Lemma scan_folder_aborts_on_vanished_file :
  is_file vanished_env (PurePath.Path_of_string "/w/r/a.txt") = Ok true /\
  stat vanished_env (PurePath.Path_of_string "/w/r/a.txt") = Raise FileNotFoundError /\
  is_file vanished_env (PurePath.Path_of_string "/w/r/b.txt") = Ok true /\
  stat vanished_env (PurePath.Path_of_string "/w/r/b.txt") = Ok (mkStat 4 2) /\
  ~ (exists files_info,
        scan_folder vanished_env (PurePath.Path_of_string "/w/r") true = Ok files_info) /\
  ~ (exists files_info,
        scan_folder vanished_env (PurePath.Path_of_string "/w/r") false = Ok files_info).
Proof.
  repeat split; try reflexivity; intros [files_info H]; vm_compute in H; discriminate.
Qed.

(** ** Empty directory, empty index *)

(** C3, as the code has it.  Scanning an empty directory returns the empty
    index.  On an empty index [organize_files] and [export_reports] return
    at once, with a fixed message as their ordinary result and the file
    system untouched; no exception is raised. *)
Theorem empty_directory_empty_index :
  (forall fmt w folder_path recursive,
      node_at w folder_path = Some (Dir []) ->
      scan_folder (quiescent fmt w) folder_path recursive = Ok []) /\
  (forall root_folder w,
      organize_files root_folder [] w = (Ok "No files found to organize.", w)) /\
  (forall utf8 csv_text json_text now folder_path w,
      export_reports utf8 csv_text json_text now folder_path [] w
      = (Ok "No files to export.", w)).
Proof.
  repeat split.
  intros fmt w folder_path recursive H.
  unfold scan_folder, quiescent; simpl. rewrite H. now destruct recursive.
Qed.

(** C3, the claim as stated, fails: on the empty index neither operation
    ends in an exception. *)
Lemma empty_index_is_not_an_error :
  ~ (exists e w',
        organize_files (PurePath.Path_of_string "/w/r") [] two_files = (Raise e, w')) /\
  ~ (exists e w',
        export_reports (fun _ => true) (fun _ => "") (fun _ => "") 0
                       (PurePath.Path_of_string "/w/r") [] two_files = (Raise e, w')).
Proof.
  split; intros [e [w' H]]; discriminate.
Qed.

(** ** Organizer: exceptions *)

Lemma for_each_app {A : Type} (f : A -> M unit) (l1 l2 : list A) (w : World) :
  for_each f (l1 ++ l2)%list w
  = match for_each f l1 w with
    | (Ok _, w') => for_each f l2 w'
    | (Raise e, w') => (Raise e, w')
    end.
Proof.
  revert w. induction l1 as [|x l1 IH]; intros w; simpl; [reflexivity|].
  unfold bind. destruct (f x w) as [[[]|e] w']; [apply IH | reflexivity].
Qed.

Lemma organize_files_for_each (root_folder : Path) (files_info : list FileInfo) (w : World) :
  files_info <> [] ->
  organize_files root_folder files_info w
  = match for_each (organize_one root_folder) files_info w with
    | (Ok _, w') => (Ok (organize_report files_info), w')
    | (Raise e, w') => (Raise e, w')
    end.
Proof.
  intros H. destruct files_info as [|info l]; [congruence|].
  unfold organize_files, bind.
  destruct (for_each (organize_one root_folder) (info :: l) w) as [[[]|e] w'];
    reflexivity.
Qed.

(** C1, as the code has it.  [organize_files] has no handler around the
    move.  When the records before [info] are organized without an exception
    and the step of [info] raises [e] (in particular when its [shutil.move]
    raises [e]), the whole call ends with [e] in the state the step left:
    the earlier moves stay, no later record is attempted, and no report is
    returned.  A report is returned exactly when no step raises. *)
Theorem organize_files_stops_at_first_exception :
  (forall root_folder pre info post w w1 w2 e,
      for_each (organize_one root_folder) pre w = (Ok tt, w1) ->
      organize_one root_folder info w1 = (Raise e, w2) ->
      organize_files root_folder (pre ++ info :: post)%list w = (Raise e, w2)) /\
  (forall root_folder info w1 w2 dest e,
      let src := PurePath.Path_of_string (full_path info) in
      let category_folder := root_folder // category info in
      mkdir_exist_ok category_folder w1 = (Ok tt, w2) ->
      PurePath.eqb (PurePath.parent src) category_folder = false ->
      choose_dest category_folder (category_folder // PurePath.name src) w2 = (Ok dest, w2) ->
      shutil_move src dest w2 = (Raise e, w2) ->
      organize_one root_folder info w1 = (Raise e, w2)) /\
  (forall root_folder files_info w w',
      files_info <> [] ->
      for_each (organize_one root_folder) files_info w = (Ok tt, w') ->
      organize_files root_folder files_info w = (Ok (organize_report files_info), w')).
Proof.
  repeat split.
  - intros root_folder pre info post w w1 w2 e Hpre Hstep.
    rewrite organize_files_for_each by (now destruct pre).
    rewrite for_each_app, Hpre. simpl. unfold bind. now rewrite Hstep.
  - intros root_folder info w1 w2 dest e src category_folder Hmk Hne Hch Hmv.
    unfold organize_one, bind. fold src. fold category_folder.
    now rewrite Hmk, Hne, Hch, Hmv.
  - intros root_folder files_info w w' Hne H.
    now rewrite organize_files_for_each, H by exact Hne.
Qed.

(** C1, the claim as stated, fails.  [a.txt] is in the index but no longer
    on disk: its move raises, [organize_files] ends with that exception
    instead of a report, and [b.txt], the next record, is never moved. *)
Lemma organize_files_propagates_move_error :
  scan_folder (quiescent epoch two_files) (PurePath.Path_of_string "/w/r") true
  = Ok two_files_index /\
  fst (organize_files (PurePath.Path_of_string "/w/r") two_files_index a_deleted)
  = Raise FileNotFoundError /\
  (let w' := snd (organize_files (PurePath.Path_of_string "/w/r") two_files_index a_deleted) in
   node_at w' (PurePath.Path_of_string "/w/r/b.txt") = Some (File "beta" 2) /\
   node_at w' (PurePath.Path_of_string "/w/r/Documents/b.txt") = None /\
   move_log w' = []).
Proof.
  vm_compute. repeat split.
Qed.

(** ** The file-system tree *)

Section TreeFacts.

Import Tree.

Lemma assoc_remove_key_same (k : string) (l : list (string * Node)) :
  assoc k (remove_key k l) = None.
Proof.
  induction l as [|[k' n'] l IH]; simpl; [reflexivity|].
  destruct (k =? k') eqn:E; simpl; [exact IH | now rewrite E].
Qed.

Lemma assoc_remove_key_other (y k : string) (l : list (string * Node)) :
  y <> k -> assoc y (remove_key k l) = assoc y l.
Proof.
  intros Hne. induction l as [|[k' n'] l IH]; simpl; [reflexivity|].
  destruct (k =? k') eqn:E; simpl.
  - apply String.eqb_eq in E. subst k'.
    apply String.eqb_neq in Hne. now rewrite Hne.
  - now rewrite IH.
Qed.

Lemma assoc_set_entry_same (k : string) (v : option Node) (l : list (string * Node)) :
  assoc k (set_entry k v l) = v.
Proof.
  induction l as [|[k' n'] l IH]; simpl.
  - destruct v; simpl; [now rewrite String.eqb_refl | reflexivity].
  - destruct (k =? k') eqn:E.
    + destruct v; simpl; [now rewrite String.eqb_refl | apply assoc_remove_key_same].
    + simpl. now rewrite E.
Qed.

Lemma assoc_set_entry_other (y k : string) (v : option Node) (l : list (string * Node)) :
  y <> k -> assoc y (set_entry k v l) = assoc y l.
Proof.
  intros Hne. pose proof Hne as Hb. apply String.eqb_neq in Hb.
  induction l as [|[k' n'] l IH]; simpl.
  - destruct v; simpl; [now rewrite Hb | reflexivity].
  - destruct (k =? k') eqn:E.
    + apply String.eqb_eq in E. subst k'. rewrite Hb.
      destruct v; simpl; [rewrite Hb|]; now apply assoc_remove_key_other.
    + simpl. now rewrite IH.
Qed.

Lemma lookup_app (n : Node) (p q : list string) :
  lookup n (p ++ q)%list
  = match lookup n p with Some c => lookup c q | None => None end.
Proof.
  revert n. induction p as [|x p IH]; intros n; simpl; [reflexivity|].
  destruct n as [|es]; [reflexivity|].
  destruct (assoc x es); [apply IH | reflexivity].
Qed.

Lemma lookup_missing_below (n : Node) (p q : list string) :
  lookup n p = None -> below p q -> lookup n q = None.
Proof.
  intros H [r ->]. now rewrite lookup_app, H.
Qed.

Lemma lookup_put_same (n n' : Node) (p : list string) (v : option Node) :
  put n p v = Ok n' -> lookup n' p = v.
Proof.
  revert n n'. induction p as [|x p IH]; intros n n' H;
    destruct n as [|es]; simpl in H; try discriminate.
  destruct p as [|y p].
  - injection H as <-. simpl. rewrite assoc_set_entry_same. now destruct v.
  - destruct (assoc x es) as [c|]; [|discriminate].
    destruct (put c (y :: p) v) as [c'|e] eqn:Hc; [|discriminate].
    injection H as <-. cbn [lookup]. rewrite assoc_set_entry_same.
    exact (IH c c' Hc).
Qed.

(** Rebinding [p] leaves every regular file that is not at or below [p]
    where it is. *)
Lemma put_keeps_files (n n' : Node) (p q : list string) (v : option Node)
  (c : string) (t : Z) :
  put n p v = Ok n' ->
  lookup n q = Some (File c t) ->
  ~ below p q ->
  lookup n' q = Some (File c t).
Proof.
  revert n n' q. induction p as [|x p IH]; intros n n' q H Hq Hnb;
    destruct n as [|es]; simpl in H; try discriminate.
  destruct q as [|y q]; [discriminate|].
  assert (Hsame : y <> x -> lookup n' (y :: q) = lookup (Dir es) (y :: q)).
  { intros Hne. destruct p as [|z p].
    - injection H as <-. cbn [lookup]. now rewrite assoc_set_entry_other.
    - destruct (assoc x es) as [d|]; [|discriminate].
      destruct (put d (z :: p) v) as [d'|e]; [|discriminate].
      injection H as <-. cbn [lookup]. now rewrite assoc_set_entry_other. }
  destruct (string_dec y x) as [->|Hne]; [|now rewrite Hsame].
  destruct p as [|z p].
  - exfalso. apply Hnb. now exists q.
  - cbn [lookup] in Hq. destruct (assoc x es) as [d|]; [|discriminate].
    destruct (put d (z :: p) v) as [d'|e] eqn:Hd; [|discriminate].
    injection H as <-. cbn [lookup]. rewrite assoc_set_entry_same.
    apply (IH d d' q Hd Hq). intros [r ->]. apply Hnb. now exists r.
Qed.

End TreeFacts.

(** ** Organizer: one step *)

Section StepFacts.

Lemma mkdir_exist_ok_spec (p : Path) (w w1 : World) (r : result unit) :
  mkdir_exist_ok p w = (r, w1) ->
  cwd w1 = cwd w /\ move_log w1 = move_log w /\
  (forall q c t, Tree.lookup (tree w) q = Some (File c t) ->
                 Tree.lookup (tree w1) q = Some (File c t)).
Proof.
  unfold mkdir_exist_ok. destruct (node_at w p) as [[|es]|] eqn:Hn.
  - intros H; injection H as <- <-; auto.
  - intros H; injection H as <- <-; auto.
  - destruct (Tree.put _ _ _) as [t'|e] eqn:Hput; intros H; injection H as <- <-; auto.
    simpl. repeat split. intros q c t Hq.
    apply (put_keeps_files _ _ _ _ _ _ _ Hput Hq).
    intros Hb. now rewrite (lookup_missing_below _ _ _ Hn Hb) in Hq.
Qed.

Lemma shutil_move_raises (src dst : Path) (w w2 : World) (e : exn) :
  shutil_move src dst w = (Raise e, w2) -> w2 = w.
Proof.
  unfold shutil_move.
  repeat match goal with
         | |- context [if ?b then _ else _] => destruct b
         | |- context [match ?x with _ => _ end] => destruct x
         end; intros H; now inversion H.
Qed.

(** A move onto a path that does not exist: the node of [src] arrives at
    [dst], and every regular file that is not at or below [src] stays. *)
Lemma shutil_move_fresh (src dst : Path) (w w2 : World) :
  path_exists w dst = false ->
  shutil_move src dst w = (Ok tt, w2) ->
  cwd w2 = cwd w /\
  move_log w2 = (move_log w ++ [(src, dst)])%list /\
  (exists n, node_at w src = Some n /\ node_at w2 dst = Some n) /\
  (forall q c t, Tree.lookup (tree w) q = Some (File c t) ->
                 ~ below (absolute w src) q ->
                 Tree.lookup (tree w2) q = Some (File c t)).
Proof.
  unfold shutil_move, path_exists, path_is_dir. intros Hfree.
  destruct (node_at w dst) eqn:Hdst; [discriminate|]. simpl.
  rewrite Hdst. destruct (node_at w src) as [n|] eqn:Hsrc; [|discriminate].
  assert (Hgo : match Tree.put (tree w) (absolute w src) None with
                | Ok t1 =>
                    match Tree.put t1 (absolute w dst) (Some n) with
                    | Ok t2 => (Ok tt, mkWorld t2 (cwd w) (move_log w ++ [(src, dst)])%list)
                    | Raise e => (Raise e, w)
                    end
                | Raise e => (Raise e, w)
                end = (Ok tt, w2) ->
                cwd w2 = cwd w /\
                move_log w2 = (move_log w ++ [(src, dst)])%list /\
                (exists n0, Some n = Some n0 /\ node_at w2 dst = Some n0) /\
                (forall q c t, Tree.lookup (tree w) q = Some (File c t) ->
                               ~ below (absolute w src) q ->
                               Tree.lookup (tree w2) q = Some (File c t))).
  { destruct (Tree.put (tree w) (absolute w src) None) as [t1|e] eqn:H1; [|discriminate].
    destruct (Tree.put t1 (absolute w dst) (Some n)) as [t2|e] eqn:H2; [|discriminate].
    intros H. injection H as <-. simpl. repeat split.
    - exists n. split; [reflexivity|]. unfold node_at, absolute. simpl.
      apply (lookup_put_same _ _ _ _ H2).
    - intros q c t Hq Hnb.
      apply (put_keeps_files _ _ _ _ _ _ _ H2).
      + apply (put_keeps_files _ _ _ _ _ _ _ H1 Hq Hnb).
      + intros Hb. unfold node_at in Hdst.
        now rewrite (lookup_missing_below _ _ _ Hdst Hb) in Hq. }
  destruct n; exact Hgo.
Qed.

End StepFacts.

(** ** Names without separators *)

Section NameFacts.

Lemma absent_app (c : ascii) (a b : string) :
  absent c (a ++ b) = absent c a && absent c b.
Proof.
  induction a as [|x a IH]; simpl; [reflexivity|].
  now rewrite IH, andb_assoc.
Qed.

Lemma absent_take (c : ascii) (n : nat) (s : string) :
  absent c s = true -> absent c (PyStr.take n s) = true.
Proof.
  revert s. induction n as [|n IH]; intros [|x s]; simpl; auto.
  intros H. apply andb_true_iff in H as [Hx Hs]. now rewrite Hx, IH.
Qed.

Lemma absent_drop (c : ascii) (n : nat) (s : string) :
  absent c s = true -> absent c (PyStr.drop n s) = true.
Proof.
  revert s. induction n as [|n IH]; intros [|x s]; simpl; auto.
  intros H. apply andb_true_iff in H as [Hx Hs]. now apply IH.
Qed.

Lemma absent_digits (c : ascii) (d : Decimal.uint) :
  absent c "0123456789" = true ->
  absent c (NilEmpty.string_of_uint d) = true.
Proof.
  intros H. simpl in H.
  repeat (apply andb_true_iff in H as [? H]).
  induction d; simpl; auto; apply andb_true_iff; split; assumption.
Qed.

(** Two strings that end at the first occurrence of [c] are equal when what
    they start is. *)
Lemma absent_stop (c : ascii) (a b x y : string) :
  absent c a = true -> absent c b = true ->
  a ++ String c x = b ++ String c y -> a = b.
Proof.
  revert b. induction a as [|p a IH]; intros [|q b]; simpl; intros Ha Hb H.
  - reflexivity.
  - injection H as H _. subst q. rewrite Ascii.eqb_refl in Hb. discriminate.
  - injection H as H _. subst p. rewrite Ascii.eqb_refl in Ha. discriminate.
  - injection H as -> H. f_equal.
    apply andb_true_iff in Ha as [_ Ha]. apply andb_true_iff in Hb as [_ Hb].
    now apply IH.
Qed.

Lemma of_nat_inj (j k : nat) : PyStr.of_nat j = PyStr.of_nat k -> j = k.
Proof.
  unfold PyStr.of_nat. intros H.
  apply (f_equal NilEmpty.uint_of_string) in H.
  rewrite !NilEmpty.usu in H. injection H as H.
  apply (f_equal Nat.of_uint) in H. now rewrite !DecimalNat.Unsigned.of_to in H.
Qed.

Lemma numbered_inj (base ext : string) (j k : nat) :
  numbered base j ext = numbered base k ext -> j = k.
Proof.
  unfold numbered. intros H.
  apply append_inv_head in H. apply (append_inv_head " (") in H.
  apply of_nat_inj.
  apply (absent_stop ")" _ _ ext ext); [apply absent_digits; reflexivity .. | exact H].
Qed.

Lemma numbered_no_slash (base ext : string) (k : nat) :
  no_slash base = true -> no_slash ext = true ->
  no_slash (numbered base k ext) = true.
Proof.
  unfold no_slash, numbered. intros Hb He.
  rewrite !absent_app, Hb, He.
  unfold PyStr.of_nat. now rewrite absent_digits.
Qed.

Lemma numbered_is_segment (base ext : string) (k : nat) :
  PurePath.is_segment (numbered base k ext) = true.
Proof.
  unfold numbered, PurePath.is_segment.
  destruct base as [|a base]; simpl; [reflexivity|].
  destruct (Ascii.eqb a "."); [|reflexivity]. now destruct base.
Qed.

Lemma split_no_slash (s : string) : no_slash s = true -> PyStr.split "/" s = [s].
Proof.
  unfold no_slash. induction s as [|a s IH]; simpl; [reflexivity|].
  intros H. apply andb_true_iff in H as [Ha Hs].
  apply negb_true_iff in Ha. now rewrite Ha, IH.
Qed.

Lemma split_all_no_slash (s : string) :
  Forall (fun x => no_slash x = true) (PyStr.split "/" s).
Proof.
  unfold no_slash. induction s as [|a s IH]; simpl; [now repeat constructor|].
  destruct (Ascii.eqb a "/") eqn:E; [now constructor|].
  destruct (PyStr.split "/" s) as [|x rest]; [now repeat constructor; simpl; rewrite E|].
  inversion IH; subst. constructor; [simpl; now rewrite E | assumption].
Qed.

(** A single name read as a path is that one segment. *)
Lemma Path_of_string_name (nm : string) :
  no_slash nm = true -> PurePath.is_segment nm = true ->
  PurePath.Path_of_string nm = mkPath Relative [nm].
Proof.
  intros Hs Hseg. unfold PurePath.Path_of_string, PurePath.root_of_string.
  rewrite split_no_slash by exact Hs. cbn [filter]. rewrite Hseg. f_equal.
  destruct (String.prefix "/" nm) eqn:E; [|reflexivity].
  apply prefix_occurs in E as [b ->]. discriminate.
Qed.

Lemma wf_Path_of_string (s : string) : wf_path (PurePath.Path_of_string s).
Proof.
  unfold wf_path, PurePath.Path_of_string. simpl.
  apply Forall_forall. intros x Hx. apply filter_In in Hx as [Hx _].
  revert x Hx. apply Forall_forall. apply split_all_no_slash.
Qed.

Lemma Path_of_string_parts_valid (s : string) :
  Forall valid_name (parts (PurePath.Path_of_string s)).
Proof.
  unfold PurePath.Path_of_string. simpl. apply Forall_forall.
  intros x Hx. apply filter_In in Hx as [Hx Hseg]. split; [|exact Hseg].
  apply (proj1 (Forall_forall _ _) (split_all_no_slash s) x Hx).
Qed.

Lemma wf_div (p : Path) (s : string) : wf_path p -> wf_path (p // s).
Proof.
  intros Hp. unfold PurePath.div, PurePath.joinpath.
  pose proof (wf_Path_of_string s) as Hs.
  destruct (PurePath.is_absolute (PurePath.Path_of_string s)); [exact Hs|].
  unfold wf_path in *. simpl. apply Forall_app. auto.
Qed.

Lemma wf_name (p : Path) : wf_path p -> no_slash (PurePath.name p) = true.
Proof.
  unfold wf_path, PurePath.name. intros H.
  induction H as [|x l Hx Hl IH]; [reflexivity|].
  destruct l; [exact Hx | exact IH].
Qed.

Lemma stem_no_slash (nm : string) :
  no_slash nm = true -> no_slash (PurePath.stem_of nm) = true.
Proof.
  unfold PurePath.stem_of, no_slash. intros H.
  destruct (PurePath.has_suffix nm); [now apply absent_take | exact H].
Qed.

Lemma suffix_no_slash (nm : string) :
  no_slash nm = true -> no_slash (PurePath.suffix_of nm) = true.
Proof.
  unfold PurePath.suffix_of, no_slash. intros H.
  destruct (PurePath.has_suffix nm); [now apply absent_drop | reflexivity].
Qed.

End NameFacts.

(** ** Organizer: the numbered names *)

Section RenameFacts.

Lemma find_free_some (w : World) (category_folder : Path) (base ext : string)
  (fuel counter : nat) (d : Path) :
  find_free w category_folder base ext fuel counter = Some d ->
  exists k,
    counter <= k < counter + fuel /\
    d = category_folder // numbered base k ext /\
    path_exists w d = false /\
    forall j, counter <= j < k ->
              path_exists w (category_folder // numbered base j ext) = true.
Proof.
  revert counter. induction fuel as [|fuel IH]; intros counter; simpl; [discriminate|].
  destruct (path_exists w (category_folder // numbered base counter ext)) eqn:E; simpl.
  - intros H. destruct (IH _ H) as [k [Hk [Hd [Hfree Hbelow]]]].
    exists k. repeat split; try assumption; try lia.
    intros j Hj. destruct (Nat.eq_dec j counter) as [->|Hne]; [exact E|].
    apply Hbelow. lia.
  - intros H. injection H as <-. exists counter. repeat split; try lia; auto.
Qed.

Lemma find_free_none (w : World) (category_folder : Path) (base ext : string)
  (fuel counter : nat) :
  find_free w category_folder base ext fuel counter = None ->
  forall j, counter <= j < counter + fuel ->
            path_exists w (category_folder // numbered base j ext) = true.
Proof.
  revert counter. induction fuel as [|fuel IH]; intros counter; simpl; [lia|].
  destruct (path_exists w (category_folder // numbered base counter ext)) eqn:E; simpl;
    [|discriminate].
  intros H j Hj. destruct (Nat.eq_dec j counter) as [->|Hne]; [exact E|].
  apply (IH _ H). lia.
Qed.

Lemma assoc_In {A : Type} (k : string) (l : list (string * A)) (v : A) :
  Tree.assoc k l = Some v -> In k (map fst l).
Proof.
  induction l as [|[k' v'] l IH]; simpl; [discriminate|].
  destruct (k =? k') eqn:E; [|auto].
  apply String.eqb_eq in E. auto.
Qed.

Lemma absolute_child (w : World) (p : Path) (nm : string) :
  absolute w (mkPath (root p) (parts p ++ [nm])) = (absolute w p ++ [nm])%list.
Proof.
  unfold absolute, PurePath.is_absolute. simpl.
  destruct (root p); [apply app_assoc | reflexivity | reflexivity].
Qed.

(** A name that exists in a folder is one of the folder's entries. *)
Lemma path_exists_child (w : World) (category_folder : Path) (nm : string) :
  no_slash nm = true -> PurePath.is_segment nm = true ->
  path_exists w (category_folder // nm) = true ->
  In nm (map fst (listdir w category_folder)).
Proof.
  intros Hs Hseg. unfold PurePath.div, PurePath.joinpath.
  rewrite Path_of_string_name by assumption.
  cbn [PurePath.is_absolute root parts].
  unfold path_exists, listdir, node_at. rewrite absolute_child, lookup_app.
  destruct (Tree.lookup (tree w) (absolute w category_folder)) as [[|es]|];
    simpl; try discriminate.
  destruct (Tree.assoc nm es) eqn:E; [|discriminate].
  intros _. now apply assoc_In in E.
Qed.

(** The loop of [unique_dest] always finds a name: a folder with [n]
    entries cannot hold all of the [n + 1] first numbered names. *)
Lemma find_free_total (w : World) (category_folder : Path) (base ext : string) :
  no_slash base = true -> no_slash ext = true ->
  find_free w category_folder base ext
            (S (List.length (listdir w category_folder))) 1 <> None.
Proof.
  intros Hb He Hnone.
  set (es := listdir w category_folder) in *.
  set (names := map (fun j => numbered base j ext) (seq 1 (S (List.length es)))).
  assert (Hnd : NoDup names).
  { apply Injective_map_NoDup; [|apply seq_NoDup].
    intros j k. apply numbered_inj. }
  assert (Hincl : incl names (map fst es)).
  { intros nm Hnm. apply in_map_iff in Hnm as [j [<- Hj]].
    apply in_seq in Hj.
    apply path_exists_child;
      [now apply numbered_no_slash | apply numbered_is_segment |].
    apply (find_free_none _ _ _ _ _ _ Hnone). lia. }
  pose proof (NoDup_incl_length Hnd Hincl) as Hlen.
  unfold names in Hlen. rewrite !length_map, length_seq in Hlen. lia.
Qed.

(** What [choose_dest] returns on a well-formed destination: a path that
    does not exist, which is the destination itself when that is free and
    otherwise the numbered name with the least counter from 1 that is free. *)
Lemma choose_dest_spec (category_folder dest : Path) (w : World) :
  wf_path dest ->
  exists d,
    choose_dest category_folder dest w = (Ok d, w) /\
    path_exists w d = false /\
    ((path_exists w dest = false /\ d = dest) \/
     (path_exists w dest = true /\
      exists k, 1 <= k /\
        d = category_folder // numbered (PurePath.stem dest) k (PurePath.suffix dest) /\
        forall j, 1 <= j < k ->
          path_exists w
            (category_folder // numbered (PurePath.stem dest) j (PurePath.suffix dest))
          = true)).
Proof.
  intros Hwf. unfold choose_dest, bind, get_exists.
  destruct (path_exists w dest) eqn:E.
  - unfold unique_dest.
    pose proof (find_free_total w category_folder (PurePath.stem dest) (PurePath.suffix dest)
                  (stem_no_slash _ (wf_name _ Hwf)) (suffix_no_slash _ (wf_name _ Hwf)))
      as Htot.
    destruct (find_free w category_folder _ _ _ 1) as [d|] eqn:Hf; [|congruence].
    destruct (find_free_some _ _ _ _ _ _ _ Hf) as [k [Hk [Hd [Hfree Hbelow]]]].
    exists d. repeat split; auto. right. split; [reflexivity|].
    exists k. repeat split; auto; lia.
  - exists dest. unfold ret. auto.
Qed.

End RenameFacts.

(** ** Organizer: no file is overwritten *)

Section NoOverwrite.

Lemma choose_dest_fresh (category_folder dest d : Path) (w w' : World) :
  choose_dest category_folder dest w = (Ok d, w') ->
  w' = w /\ path_exists w d = false.
Proof.
  unfold choose_dest, bind, get_exists, unique_dest, ret.
  destruct (path_exists w dest) eqn:E.
  - destruct (find_free w category_folder _ _ _ 1) as [d'|] eqn:Hf; [|discriminate].
    intros H. injection H as <- <-. split; [reflexivity|].
    now destruct (find_free_some _ _ _ _ _ _ _ Hf) as [k [_ [_ [Hfree _]]]].
  - intros H. injection H as <- <-. auto.
Qed.

Lemma choose_dest_raises (category_folder dest : Path) (w w' : World) (e : exn) :
  choose_dest category_folder dest w = (Raise e, w') -> w' = w.
Proof.
  unfold choose_dest, bind, get_exists, unique_dest, ret.
  destruct (path_exists w dest); [|discriminate].
  destruct (find_free w category_folder _ _ _ 1); [discriminate|].
  intros H. now injection H.
Qed.



End NoOverwrite.



(** ** Organizer: running it twice *)

(** The skip of step 3: a record whose source lies in its category folder,
    as [pathlib] compares the two paths, causes no move and changes no file. *)
Lemma organize_one_skip (root_folder : Path) (info : FileInfo) (w : World) :
  PurePath.eqb (PurePath.parent (source_of info)) (root_folder // category info) = true ->
  organize_one root_folder info w = mkdir_exist_ok (root_folder // category info) w /\
  move_log (snd (organize_one root_folder info w)) = move_log w.
Proof.
  intros H. unfold organize_one, bind. fold (source_of info). rewrite H.
  destruct (mkdir_exist_ok (root_folder // category info) w) as [[[]|e] w1] eqn:Hmk;
    destruct (mkdir_exist_ok_spec _ _ _ _ Hmk) as [_ [Hlog _]]; auto.
Qed.

Lemma category_is_relative (c : string) :
  In c ("Others" :: map fst CATEGORY_MAP) ->
  PurePath.Path_of_string c = mkPath Relative [c].
Proof.
  simpl. intros H.
  repeat (destruct H as [<-|H]; [reflexivity|]). contradiction.
Qed.

Lemma split_app_sep (x rest : string) :
  no_slash x = true ->
  PyStr.split "/" (x ++ String "/" rest) = x :: PyStr.split "/" rest.
Proof.
  unfold no_slash. induction x as [|a x IH]; simpl; [reflexivity|].
  intros H. apply andb_true_iff in H as [Ha Hx].
  apply negb_true_iff in Ha. now rewrite Ha, IH.
Qed.

Lemma split_join (l : list string) :
  Forall valid_name l -> l <> [] -> PyStr.split "/" (PyStr.join "/" l) = l.
Proof.
  induction 1 as [|x l [Hx _] Hl IH]; [congruence|]. intros _.
  destruct l as [|y l]; [now apply split_no_slash|].
  change (PyStr.join "/" (x :: y :: l)) with (x ++ String "/" (PyStr.join "/" (y :: l))).
  rewrite split_app_sep by exact Hx. f_equal. now apply IH.
Qed.

(** A string that starts with a slash and goes on with something else than
    a slash has the root [/]. *)
Lemma root_of_string_Slash (l : list string) :
  match l with
  | [] => True
  | x :: _ => x <> "" /\ String.prefix "/" x = false
  end ->
  PurePath.root_of_string ("/" ++ PyStr.join "/" l) = Slash.
Proof.
  intros Hl. unfold PurePath.root_of_string.
  assert (H1 : String.prefix "/" ("/" ++ PyStr.join "/" l) = true)
    by (apply prefix_occurs; eexists; reflexivity).
  assert (H2 : String.prefix "//" ("/" ++ PyStr.join "/" l) = false).
  { destruct (String.prefix "//" ("/" ++ PyStr.join "/" l)) eqn:E; [|reflexivity].
    exfalso. apply prefix_occurs in E as [b Hb]. simpl in Hb. injection Hb as Hb.
    destruct l as [|x l]; [discriminate Hb|]. destruct Hl as [Hx Hp].
    destruct x as [|c x]; [congruence|].
    assert (Hc : c = "/"%char) by (destruct l; simpl in Hb; now injection Hb).
    subst c.
    assert (Ht : String.prefix "/" (String "/" x) = true)
      by (apply prefix_occurs; exists x; reflexivity).
    congruence. }
  now rewrite H1, H2.
Qed.

Lemma valid_name_head (x : string) :
  valid_name x -> x <> "" /\ String.prefix "/" x = false.
Proof.
  intros [Hs Hseg]. split; [intros ->; discriminate Hseg|].
  destruct (String.prefix "/" x) eqn:E; [|reflexivity].
  apply prefix_occurs in E as [b ->]. discriminate Hs.
Qed.

(** [Path(str(p))] is [p] for an absolute path of valid names. *)
Lemma Path_of_string_str (l : list string) :
  Forall valid_name l ->
  PurePath.Path_of_string (PurePath.str (mkPath Slash l)) = mkPath Slash l.
Proof.
  intros Hl. unfold PurePath.Path_of_string, PurePath.str. cbn [root parts].
  f_equal.
  - apply root_of_string_Slash. destruct l as [|x l]; [exact I|].
    apply valid_name_head. now inversion Hl.
  - change ("/" ++ PyStr.join "/" l) with ("" ++ String "/" (PyStr.join "/" l)).
    rewrite split_app_sep by reflexivity. cbn [filter PurePath.is_segment].
    simpl (negb _ && _).
    destruct l as [|x l]; [reflexivity|].
    rewrite split_join by (assumption || discriminate).
    apply forallb_filter_id. apply forallb_forall.
    intros y Hy. apply (proj1 (Forall_forall _ _) Hl y Hy).
Qed.

Lemma root_eqb_eq (r1 r2 : Root) : PurePath.root_eqb r1 r2 = true <-> r1 = r2.
Proof. destruct r1, r2; simpl; split; congruence. Qed.

Lemma anchored_Slash (p : Path) : anchored p = true <-> root p = Slash.
Proof. unfold anchored. destruct (root p); split; congruence. Qed.

Section NodeInduction.

Variable P : Node -> Prop.
Hypothesis P_File : forall c t, P (File c t).
Hypothesis P_Dir : forall es, Forall (fun e => P (snd e)) es -> P (Dir es).

Fixpoint Node_nested_ind (n : Node) : P n :=
  match n with
  | File c t => P_File c t
  | Dir es =>
      P_Dir es
        ((fix children (l : list (string * Node)) : Forall (fun e => P (snd e)) l :=
            match l with
            | [] => Forall_nil _
            | e :: l' => Forall_cons e (Node_nested_ind (snd e)) (children l')
            end) es)
  end.

End NodeInduction.

Lemma walk_Dir (dirpath : Path) (es : list (string * Node)) :
  Tree.walk dirpath (Dir es)
  = (dirpath, Tree.dirnames es, Tree.filenames es)
    :: flat_map (fun e => Tree.walk (dirpath // fst e) (snd e)) es.
Proof.
  simpl. f_equal. induction es as [|[nm c] l IH]; [reflexivity|].
  simpl. now rewrite IH.
Qed.

Section BuiltPaths.

Variable folder_path : Path.

Lemma built_div (p : Path) (s : string) :
  built_from folder_path p -> built_from folder_path (p // s).
Proof.
  intros H. unfold PurePath.div, PurePath.joinpath.
  pose proof (Path_of_string_parts_valid s) as Hs.
  destruct (PurePath.is_absolute (PurePath.Path_of_string s)) eqn:E;
    [right; now split|].
  destruct H as [[Hr [segs [Hp Hv]]] | [Ha Hv]].
  - left. split; [exact Hr|].
    exists (segs ++ parts (PurePath.Path_of_string s))%list. cbn [parts].
    rewrite Hp, app_assoc. split; [reflexivity | now apply Forall_app].
  - right. split; [exact Ha | now apply Forall_app].
Qed.

Lemma walk_built (n : Node) :
  forall dirpath,
    built_from folder_path dirpath ->
    Forall (built_from folder_path) (walk_entries (Tree.walk dirpath n)).
Proof.
  induction n as [c t | es IH] using Node_nested_ind; intros dirpath Hd.
  - constructor.
  - rewrite walk_Dir. unfold walk_entries. cbn [flat_map fst snd].
    apply Forall_app. split.
    + apply Forall_forall. intros p Hp. apply in_map_iff in Hp as [f [<- _]].
      now apply built_div.
    + fold walk_entries. induction IH as [|e l He Hl IHl]; [constructor|].
      cbn [flat_map]. unfold walk_entries in *. rewrite flat_map_app.
      apply Forall_app. split; [|exact IHl].
      apply He. now apply built_div.
Qed.

Lemma quiescent_enumerate_built (fmt : Z -> result string) (w : World)
  (recursive : bool) (entries : list Path) :
  enumerate (quiescent fmt w) folder_path recursive = Ok entries ->
  Forall (built_from folder_path) entries.
Proof.
  assert (Hroot : built_from folder_path folder_path).
  { left. split; [reflexivity|]. exists []. now rewrite app_nil_r. }
  unfold enumerate. destruct recursive.
  - intros H. injection H as <-. cbn [os_walk quiescent].
    destruct (node_at w folder_path) as [n|]; [|constructor].
    now apply walk_built.
  - cbn [iterdir quiescent]. destruct (node_at w folder_path) as [[|es]|];
      try discriminate.
    intros H. injection H as <-. apply Forall_forall.
    intros p Hp. apply in_map_iff in Hp as [e [<- _]]. now apply built_div.
Qed.

End BuiltPaths.

(** Every record of an index comes from a visited entry. *)
Lemma scan_folder_In (env : ScanEnv) (folder_path : Path) (recursive : bool)
  (files_info : list FileInfo) (info : FileInfo) :
  scan_folder env folder_path recursive = Ok files_info ->
  In info files_info ->
  exists entries entry,
    enumerate env folder_path recursive = Ok entries /\ In entry entries /\
    get_file_info env entry folder_path = Ok (Some info).
Proof.
  intros Hscan Hin.
  destruct (enumerate env folder_path recursive) as [entries|e] eqn:Henum.
  - rewrite (scan_folder_collect _ _ _ _ Henum) in Hscan. apply collect_In in Hscan.
    assert (Hitem : In (Ok info) (flat_map (outcome_of env folder_path) entries))
      by (rewrite Hscan; now apply in_map).
    apply in_flat_map in Hitem as [entry [He Hitem]].
    exists entries, entry. split; [reflexivity|]. split; [exact He|].
    unfold outcome_of in Hitem.
    destruct (is_file env entry) as [[|]|e]; simpl in Hitem;
      [|contradiction | destruct Hitem as [Hitem|[]]; discriminate].
    destruct (get_file_info env entry folder_path) as [[info'|]|e]; simpl in Hitem;
      [|contradiction | destruct Hitem as [Hitem|[]]; discriminate].
    destruct Hitem as [Hitem|[]]. now injection Hitem as ->.
  - rewrite scan_folder_enumerate, Henum in Hscan. discriminate.
Qed.

Lemma In_removelast {A : Type} (x : A) (l : list A) : In x (removelast l) -> In x l.
Proof.
  induction l as [|a l IH]; simpl; [auto|].
  destruct l as [|b l]; [contradiction|].
  intros [->|H]; [now left | right; now apply IH].
Qed.

(** The skip test on a record of a scan whose root does not start at [/]:
    the path kept in the record is resolved and starts there. *)
Lemma unanchored_record_moves (fmt : Z -> result string) (w : World)
  (entry root_folder : Path) (info : FileInfo) :
  anchored root_folder = false ->
  built_from root_folder entry ->
  get_file_info (quiescent fmt w) entry root_folder = Ok (Some info) ->
  PurePath.eqb (PurePath.parent (source_of info)) (root_folder // category info) = false.
Proof.
  intros Hroot Hbuilt. unfold get_file_info. destruct (reserved _); [discriminate|].
  destruct (stat _ entry); [|discriminate].
  destruct (fromtimestamp _ _); [|discriminate].
  destruct (PurePath.relative_to entry root_folder) eqn:Hrel; [|discriminate].
  cbn [resolve quiescent]. intros H. injection H as <-.
  unfold source_of. cbn [full_path category].
  unfold get_category, PurePath.div. cbv zeta.
  rewrite (category_is_relative _ (first_category_range CATEGORY_MAP _)).
  unfold PurePath.joinpath, PurePath.eqb, PurePath.parent,
    PurePath.Path_of_string, PurePath.str.
  cbn [root parts PurePath.is_absolute].
  set (l := absolute w entry).
  apply andb_false_iff.
  unfold PurePath.relative_to in Hrel.
  destruct (PurePath.root_eqb (root entry) (root root_folder)) eqn:Hsame; [|discriminate].
  apply root_eqb_eq in Hsame.
  destruct (root root_folder) eqn:Hr.
  - left. unfold PurePath.root_of_string.
    assert (H1 : String.prefix "/" ("/" ++ PyStr.join "/" l) = true)
      by (apply prefix_occurs; eexists; reflexivity).
    rewrite H1. now destruct (_ && _).
  - unfold anchored in Hroot. rewrite Hr in Hroot. discriminate.
  - assert (Hl : l = parts entry)
      by (unfold l, absolute, PurePath.is_absolute; now rewrite Hsame).
    assert (Hok : match l with
                  | [] => True
                  | x :: _ => x <> "" /\ String.prefix "/" x = false
                  end ->
                  PurePath.root_eqb (PurePath.root_of_string ("/" ++ PyStr.join "/" l))
                                    Slash2 = false)
      by (intros Hhead; now rewrite root_of_string_Slash).
    assert (Hvalid : Forall valid_name l ->
                     match l with
                     | [] => True
                     | x :: _ => x <> "" /\ String.prefix "/" x = false
                     end).
    { intros Hv. destruct l as [|x l']; [exact I|].
      apply valid_name_head. now inversion Hv. }
    destruct Hbuilt as [[_ [segs [Hp Hv]]] | [_ Hv]].
    + destruct (parts root_folder) as [|y ys] eqn:Hparts.
      * left. apply Hok, Hvalid. now rewrite Hl, Hp.
      * destruct (string_dec y "") as [Hy|Hy];
          [|destruct (String.prefix "/" y) eqn:Hpre].
        -- right.
           destruct (list_eq_dec string_dec _ _) as [Heq|]; [exfalso|reflexivity].
           assert (Hin : In y (filter PurePath.is_segment
                                      (PyStr.split "/" ("/" ++ PyStr.join "/" l))))
             by (apply In_removelast; rewrite Heq; now left).
           apply filter_In in Hin as [_ Hseg]. subst y. discriminate Hseg.
        -- right.
           destruct (list_eq_dec string_dec _ _) as [Heq|]; [exfalso|reflexivity].
           assert (Hin : In y (filter PurePath.is_segment
                                      (PyStr.split "/" ("/" ++ PyStr.join "/" l))))
             by (apply In_removelast; rewrite Heq; now left).
           apply filter_In in Hin as [Hin _].
           pose proof (proj1 (Forall_forall _ _)
                         (split_all_no_slash ("/" ++ PyStr.join "/" l)) y Hin) as Hns.
           apply prefix_occurs in Hpre as [b ->]. discriminate Hns.
        -- left. apply Hok. rewrite Hl, Hp. cbn [app]. now split.
    + left. apply Hok, Hvalid. now rewrite Hl.
Qed.

(** The sibling case of the skip test: for a file that a scan finds in the
    folder [dirpath], given as a path from [/], the parent of the path kept
    in its record is [dirpath] again. *)
Lemma quiescent_record_parent (fmt : Z -> result string) (w : World)
  (dirpath root_folder : Path) (filename : string) (info : FileInfo) :
  anchored dirpath = true ->
  Forall valid_name (parts dirpath) ->
  valid_name filename ->
  get_file_info (quiescent fmt w) (dirpath // filename) root_folder = Ok (Some info) ->
  PurePath.eqb (PurePath.parent (source_of info)) dirpath = true.
Proof.
  intros Habs Hdir [Hs Hseg]. apply anchored_Slash in Habs.
  unfold PurePath.div, PurePath.joinpath. rewrite Path_of_string_name by assumption.
  cbn [PurePath.is_absolute root parts]. rewrite Habs.
  unfold get_file_info. destruct (reserved _); [discriminate|].
  destruct (stat _ _); [|discriminate].
  destruct (fromtimestamp _ _); [|discriminate].
  destruct (PurePath.relative_to _ root_folder); [|discriminate].
  cbn [resolve quiescent]. intros H. injection H as <-.
  unfold source_of.
  cbn [full_path absolute PurePath.is_absolute root parts].
  rewrite Path_of_string_str
    by (apply Forall_app; split; [exact Hdir | constructor; [now split | constructor]]).
  unfold PurePath.eqb, PurePath.parent. cbn [root parts].
  rewrite Habs, removelast_last. cbn [PurePath.root_eqb].
  now destruct (list_eq_dec string_dec (parts dirpath) (parts dirpath)).
Qed.

(** C4 on the code.  The skip of step 3 is there, and a record it applies
    to causes no move.  But the test compares the parent of the resolved
    path kept in the record with the category folder as built from the root
    the caller gave: when that root is a relative path the test fails for
    every record of every scan, also for a file that already is in its
    category folder.  So, with the folder given as [r], the first run moves
    [a.txt] into [r/Documents] and, after a new scan, the second run moves
    it again, to [a (1).txt]; with the same folder given as [/w/r] the second
    run moves nothing. *)
Theorem organize_twice_relative_root :
  (forall root_folder info w,
      PurePath.eqb (PurePath.parent (source_of info)) (root_folder // category info) = true ->
      move_log (snd (organize_one root_folder info w)) = move_log w) /\
  (forall fmt w root_folder recursive files_info info,
      anchored root_folder = false ->
      scan_folder (quiescent fmt w) root_folder recursive = Ok files_info ->
      In info files_info ->
      PurePath.eqb (PurePath.parent (source_of info)) (root_folder // category info) = false) /\
  (forall fmt w root_folder filename info,
      let category_folder := root_folder // category info in
      anchored category_folder = true ->
      Forall valid_name (parts category_folder) ->
      valid_name filename ->
      get_file_info (quiescent fmt w) (category_folder // filename) root_folder
      = Ok (Some info) ->
      PurePath.eqb (PurePath.parent (source_of info)) category_folder = true) /\
  (let r := PurePath.Path_of_string "r" in
   let w1 := snd (scan_then_organize epoch r true one_file) in
   let w2 := snd (scan_then_organize epoch r true w1) in
   move_log w1
   = [(PurePath.Path_of_string "/w/r/a.txt", PurePath.Path_of_string "r/Documents/a.txt")] /\
   move_log w2
   = (move_log w1 ++ [(PurePath.Path_of_string "/w/r/Documents/a.txt",
                       PurePath.Path_of_string "r/Documents/a (1).txt")])%list /\
   node_at w1 (PurePath.Path_of_string "/w/r/Documents/a.txt") = Some (File "alpha" 1) /\
   node_at w2 (PurePath.Path_of_string "/w/r/Documents/a.txt") = None /\
   node_at w2 (PurePath.Path_of_string "/w/r/Documents/a (1).txt") = Some (File "alpha" 1)) /\
  (let r := PurePath.Path_of_string "/w/r" in
   let w1 := snd (scan_then_organize epoch r true one_file) in
   let w2 := snd (scan_then_organize epoch r true w1) in
   move_log w1
   = [(PurePath.Path_of_string "/w/r/a.txt", PurePath.Path_of_string "/w/r/Documents/a.txt")] /\
   move_log w2 = move_log w1 /\ tree w2 = tree w1).
Proof.
  split; [|split; [|split]].
  - intros root_folder info w H. now apply organize_one_skip.
  - intros fmt w root_folder recursive files_info info Hrel Hscan.
    revert info.
    apply (proj1 (Forall_forall
                    (fun info =>
                       PurePath.eqb (PurePath.parent (source_of info))
                                    (root_folder // category info) = false)
                    files_info)).
    apply Forall_forall. intros info Hin.
    destruct (scan_folder_In _ _ _ _ _ Hscan Hin) as [entries [entry [Henum [He Hinfo]]]].
    apply (unanchored_record_moves fmt w entry root_folder info Hrel); [|exact Hinfo].
    apply (proj1 (Forall_forall _ _)
             (quiescent_enumerate_built root_folder fmt w recursive entries Henum)
             entry He).
  - intros fmt w root_folder filename info category_folder Habs Hdir Hname H.
    now apply (quiescent_record_parent fmt w category_folder root_folder filename).
  - vm_compute. repeat split.
Qed.

Lemma organize_twice_relative_root_witness :
  PurePath.eqb
    (PurePath.parent (PurePath.Path_of_string "/w/r/Documents/a.txt"))
    (PurePath.Path_of_string "r" // "Documents") = false.
Proof.
  apply (proj1 (proj2 organize_twice_relative_root) epoch
           (snd (scan_then_organize epoch (PurePath.Path_of_string "r") true one_file))
           (PurePath.Path_of_string "r") true
           [ {| name := "a.txt"; relative_path := "Documents/a.txt";
                full_path := "/w/r/Documents/a.txt"; extension := ".txt";
                category := "Documents"; ai_hint := ""; size_bytes := 5;
                modified_time := "1970-01-01 00:00:00" |} ]
           {| name := "a.txt"; relative_path := "Documents/a.txt";
              full_path := "/w/r/Documents/a.txt"; extension := ".txt";
              category := "Documents"; ai_hint := ""; size_bytes := 5;
              modified_time := "1970-01-01 00:00:00" |}).
  - reflexivity.
  - reflexivity.
  - simpl. auto.
Defined.

(** ** Instances *)

Lemma get_category_table_witness :
  get_category ".JPG" = "Images" /\ get_category ".Tar" = "Archives".
Proof.
  split.
  - apply (proj1 get_category_table ".JPG" "Images").
    exists [".jpg"; ".jpeg"; ".png"; ".gif"; ".bmp"; ".tiff"; ".webp"; ".svg"; ".heic"].
    split; simpl; auto.
  - apply (proj1 (proj2 get_category_table) ".Tar"
             (firstn 7 CATEGORY_MAP) "Archives" [".zip"; ".rar"; ".7z"; ".tar"; ".gz"]
             (skipn 8 CATEGORY_MAP)).
    + reflexivity.
    + simpl. auto.
    + intros c l Hin Hl. apply mem_In in Hl.
      simpl in Hin.
      repeat (destruct Hin as [Heq|Hin]; [injection Heq as <- <-; discriminate Hl|]).
      contradiction.
Defined.

Lemma guess_ai_category_priority_witness :
  guess_ai_category (PurePath.Path_of_string "/r/Song_Notes.bin") "Others" = "Documents".
Proof.
  apply (proj1 (proj2 (proj2 guess_ai_category_priority))
           (PurePath.Path_of_string "/r/Song_Notes.bin")
           (firstn 2 KEYWORD_GROUPS) "Documents"
           ["doc"; "report"; "assignment"; "notes"; "letter"] (skipn 3 KEYWORD_GROUPS)).
  - reflexivity.
  - exists "notes". split; [simpl; auto|]. exists "song_", ".bin". reflexivity.
  - intros g' keys' k Hin Hk Hocc. apply contains_occurs in Hocc.
    simpl in Hin.
    repeat (destruct Hin as [Heq|Hin];
            [injection Heq as <- <-; simpl in Hk;
             repeat (destruct Hk as [<-|Hk]; [discriminate Hocc|]); contradiction|]).
    contradiction.
Defined.

Lemma search_files_unknown_kind_witness :
  search_files two_files_index "size" "a" = [].
Proof.
  apply (search_files_unknown_kind two_files_index "size" "a"); discriminate.
Defined.

Lemma scan_ai_hint_only_on_Others_witness :
  ai_hint (hd report_top two_files_index) = "".
Proof.
  apply (scan_ai_hint_only_on_Others (quiescent epoch two_files)
           (PurePath.Path_of_string "/w/r") true two_files_index).
  - reflexivity.
  - simpl. auto.
  - discriminate.
Defined.

Lemma search_files_category_witness :
  map name (search_files photo_report_index "category" "Images")
  = ["photo123.xyz"; "pic.png"].
Proof.
  rewrite (proj2 search_files_category (quiescent epoch photo_report)
             (PurePath.Path_of_string "/w/r") true photo_report_index eq_refl).
  reflexivity.
Defined.

Lemma organize_files_stops_at_first_exception_witness :
  fst (organize_files (PurePath.Path_of_string "/w/r") two_files_index a_deleted)
  = Raise FileNotFoundError.
Proof.
  exact (f_equal fst
           (proj1 organize_files_stops_at_first_exception
              (PurePath.Path_of_string "/w/r") [] (hd report_top two_files_index)
              (tl two_files_index) a_deleted a_deleted
              (snd (organize_one (PurePath.Path_of_string "/w/r")
                                 (hd report_top two_files_index) a_deleted))
              FileNotFoundError eq_refl eq_refl)).
Defined.

Lemma empty_directory_empty_index_witness :
  scan_folder (quiescent epoch empty_folder) (PurePath.Path_of_string "/w/r") true = Ok [] /\
  scan_folder (quiescent epoch empty_folder) (PurePath.Path_of_string "r") false = Ok [].
Proof.
  split; apply (proj1 empty_directory_empty_index); reflexivity.
Defined.

(** * Further properties of the engine *)

(** ** Letter case and dots *)

Section CaseFacts.

Lemma lower_ascii_idem (c : ascii) :
  PyStr.lower_ascii (PyStr.lower_ascii c) = PyStr.lower_ascii c.
Proof.
  destruct c as [[] [] [] [] [] [] [] []]; reflexivity.
Qed.

Lemma lower_ascii_dot (c : ascii) : PyStr.lower_ascii c = "."%char -> c = "."%char.
Proof.
  destruct c as [[] [] [] [] [] [] [] []]; vm_compute; intros H;
    first [reflexivity | discriminate H].
Qed.

Lemma lower_idem (s : string) : PyStr.lower (PyStr.lower s) = PyStr.lower s.
Proof.
  induction s as [|c s IH]; simpl; [reflexivity|].
  now rewrite lower_ascii_idem, IH.
Qed.

Lemma lower_empty (s : string) : PyStr.lower s = "" <-> s = "".
Proof.
  destruct s; simpl; split; intros H; try reflexivity; discriminate.
Qed.

Lemma absent_lower_dot (s : string) :
  absent "." s = true -> absent "." (PyStr.lower s) = true.
Proof.
  induction s as [|c s IH]; simpl; [reflexivity|].
  intros H. apply andb_true_iff in H as [Hc Hs]. rewrite IH by exact Hs.
  rewrite andb_true_r. apply negb_true_iff. apply negb_true_iff in Hc.
  apply Ascii.eqb_neq. apply Ascii.eqb_neq in Hc.
  intros H. apply Hc. now apply lower_ascii_dot.
Qed.

Lemma lstrip_dot_absent (s : string) : absent "." s = true -> PyStr.lstrip_dot s = s.
Proof.
  destruct s as [|c s]; [reflexivity|]. simpl. intros H.
  apply andb_true_iff in H as [Hc _]. apply negb_true_iff in Hc.
  apply Ascii.eqb_neq in Hc.
  destruct c as [[] [] [] [] [] [] [] []]; first [reflexivity | now elim Hc].
Qed.

Lemma lstrip_dot_cons (s : string) : PyStr.lstrip_dot (String "." s) = PyStr.lstrip_dot s.
Proof. reflexivity. Qed.

(** [s.rfind(c)] points at an occurrence of [c] after which there is none. *)
Lemma rfind_spec (c : ascii) (s : string) (i : nat) :
  PyStr.rfind c s = Some i ->
  exists rest,
    PyStr.drop i s = String c rest /\ absent c rest = true /\
    String.length s = i + S (String.length rest).
Proof.
  revert i. induction s as [|a s IH]; simpl; intros i; [discriminate|].
  destruct (PyStr.rfind c s) as [j|] eqn:Hr.
  - intros H. injection H as <-. destruct (IH j eq_refl) as [rest [Hd [Ha Hl]]].
    exists rest. simpl. repeat split; auto; now rewrite Hl.
  - destruct (Ascii.eqb a c) eqn:E; [|discriminate].
    intros H. injection H as <-. apply Ascii.eqb_eq in E. subst a.
    exists s. simpl. repeat split; auto.
    clear IH. induction s as [|b s IHs]; simpl in *; [reflexivity|].
    destruct (PyStr.rfind c s); [discriminate|].
    destruct (Ascii.eqb b c); [discriminate|]. simpl. now apply IHs.
Qed.

(** A non-empty [Path.suffix] is a dot followed by at least one character,
    none of them a dot. *)
Lemma suffix_of_shape (nm : string) :
  PurePath.suffix_of nm = "" \/
  exists rest, PurePath.suffix_of nm = String "." rest /\
               rest <> "" /\ absent "." rest = true.
Proof.
  unfold PurePath.suffix_of, PurePath.has_suffix.
  destruct (PyStr.rfind "." nm) as [i|] eqn:Hr; [|now left].
  destruct ((0 <? i) && (i <? String.length nm - 1))%nat eqn:Hi; [|now left].
  right. destruct (rfind_spec _ _ _ Hr) as [rest [Hd [Ha Hl]]].
  exists rest. repeat split; auto.
  apply andb_true_iff in Hi as [_ Hi]. apply Nat.ltb_lt in Hi.
  destruct rest; [simpl in Hl; lia | discriminate].
Qed.

End CaseFacts.

(** ** Records of a scan *)

Lemma get_file_info_fields (env : ScanEnv) (entry root_folder : Path) (info : FileInfo) :
  get_file_info env entry root_folder = Ok (Some info) ->
  reserved (name info) = false /\
  extension info
  = (if PyStr.lower (PurePath.suffix entry) =? "" then "(no extension)"
     else PyStr.lower (PurePath.suffix entry)) /\
  category info = get_category (PyStr.lower (PurePath.suffix entry)).
Proof.
  unfold get_file_info. destruct (reserved (PurePath.name entry)) eqn:Hr; [discriminate|].
  destruct (stat env entry); [|discriminate].
  destruct (fromtimestamp env _); [|discriminate].
  destruct (PurePath.relative_to entry root_folder); [|discriminate].
  destruct (resolve env entry); [|discriminate].
  intros H. injection H as <-. simpl. auto.
Qed.

(** X1. No index a scan returns holds a record of one of the two report
    files, wherever in the tree such a file lies. *)
Theorem scan_excludes_report_files
  (env : ScanEnv) (folder_path : Path) (recursive : bool) (files_info : list FileInfo)
  (info : FileInfo) :
  scan_folder env folder_path recursive = Ok files_info ->
  In info files_info ->
  name info <> "organized_index.csv" /\ name info <> "organized_index.json".
Proof.
  intros Hscan. revert info.
  apply (proj1 (Forall_forall
                  (fun info => name info <> "organized_index.csv" /\
                               name info <> "organized_index.json") files_info)).
  apply (scan_folder_Forall env folder_path) with (recursive := recursive);
    [|exact Hscan].
  intros entry info H. apply get_file_info_fields in H as [Hr _].
  split; intros Heq; rewrite Heq in Hr; discriminate.
Qed.

(** The extension and the category that [get_file_info] stores. *)
Lemma get_file_info_extension (env : ScanEnv) (entry root_folder : Path) (info : FileInfo) :
  get_file_info env entry root_folder = Ok (Some info) ->
  category info = get_category (extension info) /\
  PyStr.lower (extension info) = extension info /\
  ((extension info = "(no extension)" /\ category info = "Others") \/
   exists rest, extension info = String "." rest /\ rest <> "" /\ absent "." rest = true).
Proof.
  intros H. apply get_file_info_fields in H as [_ [-> ->]].
  unfold PurePath.suffix.
  destruct (suffix_of_shape (PurePath.name entry)) as [-> | [rest [-> [Hne Habs]]]].
  - simpl. repeat split. left. split; reflexivity.
  - change (PyStr.lower (String "." rest)) with (String "."%char (PyStr.lower rest)).
    cbn [String.eqb].
    split; [|split].
    + unfold get_category. cbv zeta.
      change (String "."%char (PyStr.lower rest)) with (PyStr.lower (String "." rest)).
      now rewrite lower_idem.
    + change (String "."%char (PyStr.lower rest)) with (PyStr.lower (String "." rest)).
      apply lower_idem.
    + right. exists (PyStr.lower rest). repeat split.
      * intros H. apply (proj1 (lower_empty rest)) in H. contradiction.
      * now apply absent_lower_dot.
Qed.

(** X2. In every record of a scan the stored extension is never empty and
    is in lower case: it is either the marker ["(no extension)"] or a dot
    followed by at least one character, none of them a dot.  The category of
    the record is the one [get_category] gives for the stored extension, so
    it can be recomputed from the record alone. *)
Theorem scan_record_extension
  (env : ScanEnv) (folder_path : Path) (recursive : bool) (files_info : list FileInfo)
  (info : FileInfo) :
  scan_folder env folder_path recursive = Ok files_info ->
  In info files_info ->
  category info = get_category (extension info) /\
  PyStr.lower (extension info) = extension info /\
  ((extension info = "(no extension)" /\ category info = "Others") \/
   exists rest, extension info = String "." rest /\ rest <> "" /\ absent "." rest = true).
Proof.
  intros Hscan. revert info.
  apply (proj1 (Forall_forall
                  (fun info =>
                     category info = get_category (extension info) /\
                     PyStr.lower (extension info) = extension info /\
                     ((extension info = "(no extension)" /\ category info = "Others") \/
                      exists rest, extension info = String "." rest /\ rest <> "" /\
                                   absent "." rest = true)) files_info)).
  apply (scan_folder_Forall env folder_path) with (recursive := recursive);
    [|exact Hscan].
  intros entry info H. now apply get_file_info_extension in H.
Qed.

(** ** More on the QueryEngine *)

Section FilterFacts.

Context {A : Type}.

Lemma filter_subseq (f : A -> bool) (l : list A) : subseq (filter f l) l.
Proof.
  induction l as [|x l IH]; simpl; [constructor|].
  destruct (f x); now constructor.
Qed.

Lemma filter_none (f : A -> bool) (l : list A) :
  (forall x, In x l -> f x = false) -> filter f l = [].
Proof.
  induction l as [|x l IH]; simpl; intros H; [reflexivity|].
  rewrite (H x) by now left. apply IH. intros y Hy. apply H. now right.
Qed.

Lemma filter_all (f : A -> bool) (l : list A) :
  (forall x, In x l -> f x = true) -> filter f l = l.
Proof.
  induction l as [|x l IH]; simpl; intros H; [reflexivity|].
  rewrite (H x) by now left. f_equal. apply IH. intros y Hy. apply H. now right.
Qed.

Lemma filter_swap (f g : A -> bool) (l : list A) :
  filter f (filter g l) = filter g (filter f l).
Proof.
  induction l as [|x l IH]; simpl; [reflexivity|].
  destruct (g x) eqn:Hg, (f x) eqn:Hf; simpl; rewrite ?Hg, ?Hf, IH; reflexivity.
Qed.

Lemma filter_twice (f : A -> bool) (l : list A) :
  filter f (filter f l) = filter f l.
Proof.
  induction l as [|x l IH]; simpl; [reflexivity|].
  destruct (f x) eqn:Hf; simpl; rewrite ?Hf, IH; reflexivity.
Qed.

End FilterFacts.

(** X3. A ["name"] search returns, in index order, exactly the records in
    whose name the query occurs as a contiguous block, letter case apart. *)
Theorem search_files_name (files_info : list FileInfo) (query : string) :
  subseq (search_files files_info "name" query) files_info /\
  forall info,
    In info (search_files files_info "name" query) <->
    In info files_info /\ PyStr.occurs (PyStr.lower query) (PyStr.lower (name info)).
Proof.
  rewrite search_files_filter. split; [apply filter_subseq|].
  intros info. rewrite filter_In. unfold matches. simpl.
  now rewrite contains_occurs.
Qed.

(** X4. An ["extension"] search does not depend on leading dots or on the
    letter case of the query: two queries that agree once lower-cased and
    stripped of leading dots give the same result, so [pdf], [.pdf] and
    [.PDF] do.  Every record of the index is found by its own extension. *)
Theorem search_files_extension (files_info : list FileInfo) :
  (forall q q',
      PyStr.lstrip_dot (PyStr.lower q) = PyStr.lstrip_dot (PyStr.lower q') ->
      search_files files_info "extension" q = search_files files_info "extension" q') /\
  (forall q, search_files files_info "extension" ("." ++ q)
             = search_files files_info "extension" q) /\
  (forall q, search_files files_info "extension" (PyStr.lower q)
             = search_files files_info "extension" q) /\
  (forall info, In info files_info ->
                In info (search_files files_info "extension" (extension info))).
Proof.
  assert (Hq : forall q q',
             PyStr.lstrip_dot (PyStr.lower q) = PyStr.lstrip_dot (PyStr.lower q') ->
             search_files files_info "extension" q
             = search_files files_info "extension" q').
  { intros q q' H. rewrite !search_files_filter. apply filter_ext.
    intros info. unfold matches. simpl. now rewrite H. }
  split; [exact Hq|]. split; [|split].
  - intros q. apply Hq. reflexivity.
  - intros q. apply Hq. now rewrite lower_idem.
  - intros info Hin. rewrite search_files_filter. apply filter_In.
    split; [exact Hin|]. unfold matches. simpl. apply String.eqb_refl.
Qed.

(** X5. The empty query.  A ["name"] search for it returns the whole
    index.  On the index of a scan, a ["category"] search for it returns the
    records that carry no hint, and an ["extension"] search for it, or for
    dots only, returns nothing. *)
Theorem search_files_empty_query :
  (forall files_info, search_files files_info "name" "" = files_info) /\
  (forall env folder_path recursive files_info,
      scan_folder env folder_path recursive = Ok files_info ->
      search_files files_info "category" ""
      = filter (fun info => ai_hint info =? "") files_info) /\
  (forall env folder_path recursive files_info q,
      scan_folder env folder_path recursive = Ok files_info ->
      PyStr.lstrip_dot (PyStr.lower q) = "" ->
      search_files files_info "extension" q = []).
Proof.
  split; [|split].
  - intros files_info. rewrite search_files_filter. apply filter_all.
    intros info _. unfold matches. simpl. now destruct (PyStr.lower (name info)).
  - intros env folder_path recursive files_info Hscan.
    rewrite search_files_filter. apply filter_ext_in.
    apply (proj1 (Forall_forall
                    (fun info => matches "category" (PyStr.lower "") info = _)
                    files_info)).
    apply (scan_folder_Forall env folder_path) with (recursive := recursive);
      [|exact Hscan].
    intros entry info Hinfo.
    destruct (get_file_info_extension _ _ _ _ Hinfo) as [Hc _].
    unfold matches. simpl.
    assert (Hne : category info <> "").
    { rewrite Hc. unfold get_category. cbv zeta.
      pose proof (first_category_range CATEGORY_MAP (PyStr.lower (extension info))) as Hr.
      intros Heq. rewrite Heq in Hr. simpl in Hr.
      repeat (destruct Hr as [Hr|Hr]; [discriminate Hr|]). contradiction. }
    destruct (category info); [congruence|]. simpl.
    now destruct (ai_hint info).
  - intros env folder_path recursive files_info q Hscan Hq.
    rewrite search_files_filter. apply filter_none.
    apply (proj1 (Forall_forall
                    (fun info => matches "extension" (PyStr.lower q) info = false)
                    files_info)).
    apply (scan_folder_Forall env folder_path) with (recursive := recursive);
      [|exact Hscan].
    intros entry info Hinfo.
    destruct (get_file_info_extension _ _ _ _ Hinfo) as [_ [Hl Hshape]].
    unfold matches. simpl. rewrite Hq, Hl.
    destruct Hshape as [[-> _] | [rest [-> [Hne Habs]]]]; [reflexivity|].
    rewrite lstrip_dot_cons, lstrip_dot_absent by exact Habs.
    destruct rest; [congruence | reflexivity].
Qed.

(** X6. Searches compose as filters do: the search of two indexes put end
    to end is the two results put end to end, a search repeated on its own
    result changes nothing, and narrowing one search by another gives the
    same records in either order. *)
Theorem search_files_compose :
  (forall l1 l2 search_type query,
      search_files (l1 ++ l2)%list search_type query
      = (search_files l1 search_type query ++ search_files l2 search_type query)%list) /\
  (forall l search_type query,
      search_files (search_files l search_type query) search_type query
      = search_files l search_type query) /\
  (forall l t1 q1 t2 q2,
      search_files (search_files l t1 q1) t2 q2
      = search_files (search_files l t2 q2) t1 q1) /\
  (forall l search_type query, subseq (search_files l search_type query) l).
Proof.
  repeat split; intros; rewrite !search_files_filter.
  - apply filter_app.
  - apply filter_twice.
  - apply filter_swap.
  - apply filter_subseq.
Qed.

(** ** The summary by category *)

Section CountFacts.

Lemma dict_get_incr (k k' : string) (d : list (string * nat)) :
  dict_get k' (dict_incr k d) = dict_get k' d + (if k' =? k then 1 else 0).
Proof.
  unfold dict_get. induction d as [|[k0 n] d IH]; simpl.
  - destruct (k' =? k); reflexivity.
  - destruct (k =? k0) eqn:E; simpl.
    + apply String.eqb_eq in E. subst k0.
      destruct (k' =? k); lia.
    + destruct (k' =? k0) eqn:E'; [|exact IH].
      apply String.eqb_eq in E'. subst k0.
      rewrite String.eqb_sym, E. lia.
Qed.

Lemma dict_incr_keys (k : string) (d : list (string * nat)) :
  map fst (dict_incr k d)
  = if mem k (map fst d) then map fst d else (map fst d ++ [k])%list.
Proof.
  unfold mem. induction d as [|[k0 n] d IH]; simpl; [reflexivity|].
  destruct (k =? k0); simpl; [reflexivity|].
  rewrite IH. now destruct (existsb (String.eqb k) (map fst d)).
Qed.

Lemma dict_incr_NoDup (k : string) (d : list (string * nat)) :
  NoDup (map fst d) -> NoDup (map fst (dict_incr k d)).
Proof.
  intros H. rewrite dict_incr_keys. destruct (mem k (map fst d)) eqn:E; [exact H|].
  apply NoDup_app; [exact H | constructor; [intros [] | constructor] |].
  intros x Hx [<-|[]]. apply mem_In in Hx. congruence.
Qed.

Lemma dict_incr_sum (k : string) (d : list (string * nat)) :
  list_sum (map snd (dict_incr k d)) = S (list_sum (map snd d)).
Proof.
  induction d as [|[k0 n] d IH]; simpl; [reflexivity|].
  destruct (k =? k0); simpl; [reflexivity | rewrite IH; lia].
Qed.

Lemma dict_incr_positive (k : string) (d : list (string * nat)) :
  Forall (fun kv => 0 < snd kv) d -> Forall (fun kv => 0 < snd kv) (dict_incr k d).
Proof.
  induction 1 as [|[k0 n] d Hn Hd IH]; simpl; [repeat constructor|].
  destruct (k =? k0); constructor; simpl in *; auto; lia.
Qed.

Lemma category_count_fold (files_info : list FileInfo) (d : list (string * nat)) :
  let d' := fold_left (fun d info => dict_incr (category info) d) files_info d in
  (NoDup (map fst d) -> NoDup (map fst d')) /\
  (Forall (fun kv => 0 < snd kv) d -> Forall (fun kv => 0 < snd kv) d') /\
  (forall c, dict_get c d' = dict_get c d + records_of_category c files_info) /\
  list_sum (map snd d') = list_sum (map snd d) + List.length files_info.
Proof.
  revert d. induction files_info as [|info l IH]; intros d; simpl.
  - repeat split; auto; try (intros c; unfold records_of_category; simpl; lia).
  - destruct (IH (dict_incr (category info) d)) as [Hnd [Hpos [Hget Hsum]]].
    repeat split.
    + intros H. now apply Hnd, dict_incr_NoDup.
    + intros H. now apply Hpos, dict_incr_positive.
    + intros c. rewrite Hget, dict_get_incr. unfold records_of_category. simpl.
      rewrite (String.eqb_sym c). destruct (category info =? c); simpl; lia.
    + rewrite Hsum, dict_incr_sum. lia.
Qed.

Lemma assoc_In_NoDup (k : string) (n : nat) (d : list (string * nat)) :
  NoDup (map fst d) -> (In (k, n) d <-> Tree.assoc k d = Some n).
Proof.
  induction d as [|[k0 n0] d IH]; simpl; intros Hnd.
  - split; [intros [] | discriminate].
  - inversion Hnd as [|? ? Hk0 Hnd']; subst.
    destruct (k =? k0) eqn:E.
    + apply String.eqb_eq in E. subst k0. split.
      * intros [H|H]; [now injection H as -> |].
        exfalso. apply Hk0. apply in_map_iff. now exists (k, n).
      * intros H. injection H as ->. now left.
    + rewrite <- (IH Hnd'). split; [|now right].
      intros [H|H]; [|exact H]. injection H as -> ->.
      now rewrite String.eqb_refl in E.
Qed.

End CountFacts.

(** X7. The per-category summary is exact: [category_count] lists every
    category that has a record in the index once, with the number of its
    records, lists no other category, and its counts add up to the length of
    the index. *)
Theorem category_count_exact (files_info : list FileInfo) :
  NoDup (map fst (category_count files_info)) /\
  (forall c n, In (c, n) (category_count files_info) <->
               n = records_of_category c files_info /\ 0 < n) /\
  list_sum (map snd (category_count files_info)) = List.length files_info.
Proof.
  destruct (category_count_fold files_info []) as [Hnd [Hpos [Hget Hsum]]].
  fold (category_count files_info) in *.
  specialize (Hnd (NoDup_nil _)). specialize (Hpos (Forall_nil _)).
  split; [exact Hnd|]. split; [|exact Hsum].
  intros c n. rewrite (assoc_In_NoDup c n _ Hnd). specialize (Hget c).
  unfold dict_get in Hget. simpl in Hget. split.
  - intros H. rewrite H in Hget. split; [exact Hget|].
    apply (assoc_In_NoDup c n _ Hnd) in H.
    apply (proj1 (Forall_forall _ _) Hpos (c, n) H).
  - intros [-> Hn]. destruct (Tree.assoc c (category_count files_info)) as [m|];
      [now rewrite Hget | lia].
Qed.

(** ** Exporter *)

Section WriteFacts.

Lemma div_valid (p : Path) (nm : string) :
  valid_name nm -> p // nm = mkPath (root p) (parts p ++ [nm]).
Proof.
  intros [Hs Hseg]. unfold PurePath.div, PurePath.joinpath.
  now rewrite Path_of_string_name.
Qed.

Lemma absolute_div (w : World) (p : Path) (nm : string) :
  valid_name nm -> absolute w (p // nm) = (absolute w p ++ [nm])%list.
Proof.
  intros H. rewrite div_valid by exact H. apply absolute_child.
Qed.

(** Rebinding below one name of a directory leaves what is below its other
    names as it is. *)
Lemma lookup_put_diverge (n n' : Node) (c r1 r2 : list string) (x y : string)
  (v : option Node) :
  Tree.put n (c ++ x :: r1)%list v = Ok n' ->
  y <> x ->
  Tree.lookup n' (c ++ y :: r2)%list = Tree.lookup n (c ++ y :: r2)%list.
Proof.
  revert n n'. induction c as [|a c IH]; intros n n' H Hne;
    destruct n as [|es]; simpl in H; try discriminate.
  - destruct r1 as [|z r1]; cbv iota beta in H.
    + injection H as <-. cbn [Tree.lookup app]. now rewrite assoc_set_entry_other.
    + destruct (Tree.assoc x es) as [d|]; [|discriminate].
      destruct (Tree.put d (z :: r1) v) as [d'|e]; [|discriminate].
      injection H as <-. cbn [Tree.lookup app]. now rewrite assoc_set_entry_other.
  - destruct (c ++ x :: r1)%list as [|z l] eqn:El; [now destruct c|].
    destruct (Tree.assoc a es) as [d|] eqn:Ha; [|discriminate].
    destruct (Tree.put d (z :: l) v) as [d'|e] eqn:Hd; [|discriminate].
    injection H as <-. simpl. rewrite assoc_set_entry_same, Ha.
    apply (IH d d' Hd Hne).
Qed.

Lemma put_child_ok (n : Node) (p : list string) (x : string) (v : option Node)
  (es : list (string * Node)) :
  Tree.lookup n p = Some (Dir es) -> exists n', Tree.put n (p ++ [x])%list v = Ok n'.
Proof.
  revert n. induction p as [|a p IH]; intros n H.
  - injection H as ->. simpl. eauto.
  - destruct n as [|es0]; [discriminate|]. cbn [Tree.lookup] in H.
    destruct (Tree.assoc a es0) as [d|] eqn:Ha; [|discriminate].
    destruct (IH d H) as [d' Hd]. simpl.
    destruct (p ++ [x])%list eqn:El; [now destruct p|].
    rewrite Ha, Hd. eauto.
Qed.

Lemma put_child_dir (n n' : Node) (p : list string) (x : string) (v : option Node) :
  Tree.put n (p ++ [x])%list v = Ok n' -> exists es, Tree.lookup n p = Some (Dir es).
Proof.
  revert n n'. induction p as [|a p IH]; intros n n' H;
    destruct n as [|es]; simpl in H; try discriminate.
  - simpl. eauto.
  - destruct (p ++ [x])%list eqn:El; [now destruct p|].
    cbn [Tree.lookup].
    destruct (Tree.assoc a es) as [d|]; [|discriminate].
    destruct (Tree.put d (s :: l) v) as [d'|e] eqn:Hd; [|discriminate].
    apply (IH d d' Hd).
Qed.


Lemma write_text_ok (p : Path) (text : string) (now : Z) (w w' : World) :
  write_text p text now w = (Ok tt, w') ->
  path_is_dir w p = false /\
  cwd w' = cwd w /\ move_log w' = move_log w /\
  Tree.put (tree w) (absolute w p) (Some (File text now)) = Ok (tree w') /\
  node_at w' p = Some (File text now).
Proof.
  unfold write_text, path_is_dir.
  assert (Hput : forall t, Tree.put (tree w) (absolute w p) (Some (File text now)) = Ok t ->
                           node_at (mkWorld t (cwd w) (move_log w)) p = Some (File text now)).
  { intros t Ht. unfold node_at, absolute. simpl. apply (lookup_put_same _ _ _ _ Ht). }
  destruct (node_at w p) as [[|es]|]; try discriminate;
    destruct (Tree.put _ _ _) as [t|e] eqn:Ht; try discriminate;
    intros H; injection H as <-; simpl; repeat split; auto.
Qed.

(** When does the write go through: the parent is a directory and the path
    itself is not one. *)
Lemma write_text_child (folder : Path) (nm text : string) (now : Z) (w : World) :
  valid_name nm ->
  (exists w', write_text (folder // nm) text now w = (Ok tt, w')) <->
  path_is_dir w folder = true /\ path_is_dir w (folder // nm) = false.
Proof.
  intros Hnm. split.
  - intros [w' H]. apply write_text_ok in H as [Hnd [_ [_ [Hput _]]]].
    split; [|exact Hnd]. rewrite absolute_div in Hput by exact Hnm.
    apply put_child_dir in Hput as [es Hes]. unfold path_is_dir, node_at. now rewrite Hes.
  - intros [Hd Hnd]. unfold write_text, path_is_dir in *.
    destruct (node_at w folder) as [[|es]|] eqn:Hf; try discriminate.
    destruct (put_child_ok _ _ nm (Some (File text now)) _ Hf) as [t Ht].
    rewrite absolute_div by exact Hnm. rewrite Ht.
    destruct (node_at w (folder // nm)) as [[|]|]; try discriminate; eauto.
Qed.

End WriteFacts.

Section ExportFacts.

Variable utf8 : FileInfo -> bool.
Variable csv_text json_text : list FileInfo -> string.
Variable now : Z.

Lemma encoded_rows_all (files_info : list FileInfo) :
  forallb utf8 files_info = true -> encoded_rows utf8 files_info = files_info.
Proof.
  induction files_info as [|info l IH]; simpl; [reflexivity|].
  intros H. apply andb_true_iff in H as [-> H]. now rewrite IH.
Qed.

Lemma report_names_valid :
  valid_name "organized_index.csv" /\ valid_name "organized_index.json".
Proof. repeat split. Qed.

Lemma write_text_keeps_files (p : Path) (text : string) (w w' : World)
  (q : list string) (c : string) (t : Z) :
  write_text p text now w = (Ok tt, w') ->
  Tree.lookup (tree w) q = Some (File c t) ->
  q <> absolute w p ->
  Tree.lookup (tree w') q = Some (File c t).
Proof.
  intros H Hq Hne. apply write_text_ok in H as [Hnd [_ [_ [Hput _]]]].
  apply (put_keeps_files _ _ _ _ _ _ _ Hput Hq).
  intros [r ->]. rewrite lookup_app in Hq. unfold path_is_dir, node_at in Hnd.
  destruct (Tree.lookup (tree w) (absolute w p)) as [[|es]|]; try discriminate.
  destruct r; [|discriminate]. apply Hne. now rewrite app_nil_r.
Qed.

(** The directory test at one report path is not changed by writing the
    other report. *)
Lemma write_text_sibling (folder : Path) (x y text : string) (w w' : World) :
  valid_name x -> valid_name y -> y <> x ->
  write_text (folder // x) text now w = (Ok tt, w') ->
  node_at w' (folder // y) = node_at w (folder // y).
Proof.
  intros Hx Hy Hne H. apply write_text_ok in H as [_ [Hcwd [_ [Hput _]]]].
  unfold node_at. rewrite !absolute_div in * by assumption.
  replace (absolute w' folder) with (absolute w folder)
    by (unfold absolute; now rewrite Hcwd).
  apply (lookup_put_diverge _ _ _ [] [] _ _ _ Hput Hne).
Qed.


Lemma export_reports_unfold (folder_path : Path) (files_info : list FileInfo) (w : World) :
  files_info <> [] ->
  export_reports utf8 csv_text json_text now folder_path files_info w
  = match write_text (csv_path_of folder_path)
            (csv_text (encoded_rows utf8 files_info)) now w with
    | (Ok _, w1) =>
        if forallb utf8 files_info then
          match write_text (json_path_of folder_path) (json_text files_info) now w1 with
          | (Ok _, w2) =>
              (Ok ("Reports created:" ++ nl ++ "  CSV : "
                   ++ PurePath.str (csv_path_of folder_path)
                   ++ nl ++ "  JSON: " ++ PurePath.str (json_path_of folder_path)), w2)
          | (Raise e, w2) => (Raise e, w2)
          end
        else (Raise UnicodeEncodeError, w1)
    | (Raise e, w1) => (Raise e, w1)
    end.
Proof.
  intros H. destruct files_info as [|info l]; [congruence|].
  unfold export_reports, write_csv, bind, csv_path_of, json_path_of.
  destruct (write_text _ _ now w) as [[[]|e] w1]; [|reflexivity].
  destruct (forallb utf8 (info :: l)); [|reflexivity]. unfold ret.
  destruct (write_text _ _ now w1) as [[[]|e] w2]; reflexivity.
Qed.

End ExportFacts.

(** X8. After an export that returns, both report files are in the folder
    with the texts written for the index, the second write has not disturbed
    the first, the folder was a directory, and every other regular file of
    the file system is where it was, with its content. *)
Theorem export_reports_effect
  (utf8 : FileInfo -> bool) (csv_text json_text : list FileInfo -> string) (now : Z)
  (folder_path : Path) (files_info : list FileInfo) (w w' : World) (msg : string) :
  files_info <> [] ->
  export_reports utf8 csv_text json_text now folder_path files_info w = (Ok msg, w') ->
  node_at w' (csv_path_of folder_path) = Some (File (csv_text files_info) now) /\
  node_at w' (json_path_of folder_path) = Some (File (json_text files_info) now) /\
  path_is_dir w folder_path = true /\
  move_log w' = move_log w /\
  (forall q c t,
      Tree.lookup (tree w) q = Some (File c t) ->
      q <> absolute w (csv_path_of folder_path) ->
      q <> absolute w (json_path_of folder_path) ->
      Tree.lookup (tree w') q = Some (File c t)).
Proof.
  intros Hne. rewrite export_reports_unfold by exact Hne.
  destruct (write_text (csv_path_of folder_path) _ now w) as [[[]|e] w1] eqn:H1;
    [|discriminate].
  destruct (forallb utf8 files_info) eqn:Hutf8; [|discriminate].
  rewrite encoded_rows_all in H1 by exact Hutf8.
  destruct (write_text (json_path_of folder_path) _ now w1) as [[[]|e] w2] eqn:H2;
    [|discriminate].
  intros H. injection H as _ <-.
  destruct report_names_valid as [Hc Hj].
  pose proof (write_text_ok _ _ _ _ _ H1) as [_ [Hcwd1 [Hlog1 [_ Hn1]]]].
  pose proof (write_text_ok _ _ _ _ _ H2) as [_ [Hcwd2 [Hlog2 [_ Hn2]]]].
  split; [|split; [exact Hn2|split; [|split; [congruence|]]]].
  - unfold csv_path_of, json_path_of in *.
    rewrite (write_text_sibling now folder_path "organized_index.json"
               "organized_index.csv" (json_text files_info) w1 w2 Hj Hc)
      by (discriminate || exact H2).
    exact Hn1.
  - apply (proj1 (write_text_child folder_path "organized_index.csv"
                    (csv_text files_info) now w Hc)).
    exists w1. exact H1.
  - intros q c t Hq Hq1 Hq2.
    apply (write_text_keeps_files now _ _ _ _ _ _ _ H2).
    + apply (write_text_keeps_files now _ _ _ _ _ _ _ H1 Hq Hq1).
    + unfold absolute in *. now rewrite Hcwd1.
Qed.



Lemma export_reports_effect_witness :
  node_at (snd (export_reports no_surrogate (fun _ => "csv") (fun _ => "json") 9
                  (PurePath.Path_of_string "/w/r") two_files_index two_files))
          (PurePath.Path_of_string "/w/r/organized_index.csv")
  = Some (File "csv" 9).
Proof.
  pose proof (export_reports_effect no_surrogate (fun _ => "csv") (fun _ => "json") 9
                (PurePath.Path_of_string "/w/r") two_files_index two_files) as H.
  destruct (export_reports no_surrogate (fun _ => "csv") (fun _ => "json") 9
              (PurePath.Path_of_string "/w/r") two_files_index two_files)
    as [[msg|e] w'] eqn:E.
  - exact (proj1 (H w' msg ltac:(discriminate) eq_refl)).
  - vm_compute in E. discriminate.
Defined.

(** ** Organizer: what is moved, and where to *)

Section MoveFacts.

Lemma mkdir_exist_ok_is_dir (p : Path) (w w1 : World) :
  mkdir_exist_ok p w = (Ok tt, w1) -> path_is_dir w1 p = true.
Proof.
  unfold mkdir_exist_ok, path_is_dir.
  destruct (node_at w p) as [[|es]|] eqn:Hn.
  - discriminate.
  - intros H. injection H as <-. now rewrite Hn.
  - destruct (Tree.put _ _ _) as [t|e] eqn:Hput; [|discriminate].
    intros H. injection H as <-. unfold node_at, absolute. simpl.
    fold (absolute w p). now rewrite (lookup_put_same _ _ _ _ Hput).
Qed.

Lemma parent_div_valid (p : Path) (nm : string) :
  valid_name nm -> PurePath.parent (p // nm) = p /\ PurePath.name (p // nm) = nm.
Proof.
  intros H. rewrite div_valid by exact H.
  unfold PurePath.parent, PurePath.name. simpl.
  rewrite removelast_last, last_last. now destruct p.
Qed.

(** The destination the organizer settles on is a valid name directly
    inside the category folder. *)
Lemma chosen_dest_inside (root_path : string) (info : FileInfo) (w : World) (d : Path) :
  let category_folder := PurePath.Path_of_string root_path // category info in
  let dest := category_folder // PurePath.name (source_of info) in
  path_is_dir w category_folder = true ->
  choose_dest category_folder dest w = (Ok d, w) ->
  PurePath.parent d = category_folder /\ valid_name (PurePath.name d).
Proof.
  intros category_folder dest Hdir Hch.
  assert (Hwf : wf_path dest)
    by (unfold dest, category_folder; apply wf_div, wf_div, wf_Path_of_string).
  destruct (choose_dest_spec category_folder dest w Hwf) as [d' [Hd' [_ Hname]]].
  rewrite Hd' in Hch. injection Hch as Hfst. rewrite <- Hfst. clear Hfst Hd'.
  assert (Hinside : forall nm, valid_name nm ->
                      PurePath.parent (category_folder // nm) = category_folder /\
                      valid_name (PurePath.name (category_folder // nm))).
  { intros nm Hnm. destruct (parent_div_valid category_folder nm Hnm) as [-> ->]. auto. }
  destruct Hname as [[Hfree ->] | [_ [k [_ [-> _]]]]].
  - assert (Hnm : PurePath.name (source_of info) = ""
                  \/ valid_name (PurePath.name (source_of info))).
    { unfold PurePath.name, source_of.
      pose proof (Path_of_string_parts_valid (full_path info)) as Hparts.
      destruct (parts (PurePath.Path_of_string (full_path info))) as [|x l];
        [now left|]. right.
      destruct (@exists_last _ (x :: l) ltac:(discriminate)) as [l' [y Hy]].
      rewrite Hy in *. rewrite last_last.
      apply Forall_app in Hparts as [_ Hy']. now inversion Hy'. }
    destruct Hnm as [Hnm | Hnm]; [|now apply Hinside].
    exfalso. unfold dest in Hfree. rewrite Hnm in Hfree.
    assert (Heq : absolute w (category_folder // "") = absolute w category_folder).
    { unfold PurePath.div, PurePath.joinpath, absolute. simpl. now rewrite app_nil_r. }
    unfold path_exists, path_is_dir, node_at in *. rewrite Heq in Hfree.
    destruct (Tree.lookup _ _) as [[|]|]; discriminate.
  - apply Hinside. split.
    + apply numbered_no_slash;
        [apply stem_no_slash | apply suffix_no_slash]; now apply wf_name.
    + apply numbered_is_segment.
Qed.

Lemma organize_one_log (root_path : string) (info : FileInfo) (w w' : World)
  (r : result unit) :
  organize_one (PurePath.Path_of_string root_path) info w = (r, w') ->
  move_log w' = move_log w \/
  exists d,
    move_log w' = (move_log w ++ [(source_of info, d)])%list /\
    PurePath.parent d = PurePath.Path_of_string root_path // category info /\
    valid_name (PurePath.name d).
Proof.
  unfold organize_one, bind. fold (source_of info).
  set (cf := PurePath.Path_of_string root_path // category info).
  destruct (mkdir_exist_ok cf w) as [[[]|e] w1] eqn:Hmk;
    destruct (mkdir_exist_ok_spec _ _ _ _ Hmk) as [_ [Hlog _]].
  2:{ intros H. injection H as <- <-. now left. }
  destruct (PurePath.eqb (PurePath.parent (source_of info)) cf).
  { intros H. injection H as <- <-. now left. }
  destruct (choose_dest cf (cf // PurePath.name (source_of info)) w1)
    as [[d|e] w1'] eqn:Hch.
  2:{ apply choose_dest_raises in Hch. subst w1'.
      intros H. injection H as <- <-. now left. }
  pose proof (choose_dest_fresh _ _ _ _ _ Hch) as [-> Hfree].
  destruct r as [[]|e]; intros Hmv.
  - right. exists d.
    destruct (shutil_move_fresh _ _ _ _ Hfree Hmv) as [_ [Hlog2 _]].
    split; [congruence|].
    apply (chosen_dest_inside root_path info w1 d);
      [apply (mkdir_exist_ok_is_dir _ _ _ Hmk) | exact Hch].
  - apply shutil_move_raises in Hmv. subst w'. now left.
Qed.

End MoveFacts.

(** X10. [organize_files] moves nothing but files of its index, each at
    most once and in index order, and every move ends directly inside the
    category folder of its record, under a valid name: the moves a run adds
    to the log pair up with a subsequence of the index. *)
Theorem organize_files_moves
  (root_path : string) (files_info : list FileInfo) (w w' : World) (r : result string) :
  organize_files (PurePath.Path_of_string root_path) files_info w = (r, w') ->
  exists moved moves,
    move_log w' = (move_log w ++ moves)%list /\
    subseq moved files_info /\
    Forall2 (fun info mv =>
               fst mv = source_of info /\
               PurePath.parent (snd mv)
               = PurePath.Path_of_string root_path // category info /\
               valid_name (PurePath.name (snd mv)))
            moved moves.
Proof.
  assert (Hloop : forall l w0 r0 w1,
             for_each (organize_one (PurePath.Path_of_string root_path)) l w0 = (r0, w1) ->
             exists moved moves,
               move_log w1 = (move_log w0 ++ moves)%list /\
               subseq moved l /\
               Forall2 (fun info mv =>
                          fst mv = source_of info /\
                          PurePath.parent (snd mv)
                          = PurePath.Path_of_string root_path // category info /\
                          valid_name (PurePath.name (snd mv)))
                       moved moves).
  { induction l as [|info l IH]; intros w0 r0 w1; simpl.
    - intros H. injection H as <- <-. exists [], []. rewrite app_nil_r.
      split; [reflexivity|]. split; constructor.
    - unfold bind.
      destruct (organize_one _ info w0) as [[[]|e] w0'] eqn:Hstep;
        pose proof (organize_one_log _ _ _ _ _ Hstep) as Hlog.
      + intros H. destruct (IH _ _ _ H) as [moved [moves [Hl [Hs Hf]]]].
        destruct Hlog as [Hlog | [d [Hlog [Hp Hv]]]].
        * exists moved, moves. rewrite Hl, Hlog.
          split; [reflexivity|]. split; [now constructor | exact Hf].
        * exists (info :: moved), ((source_of info, d) :: moves).
          rewrite Hl, Hlog, <- app_assoc.
          split; [reflexivity|]. split; [now constructor|].
          constructor; [simpl; auto | exact Hf].
      + intros H. injection H as <- <-.
        assert (Hnil : subseq (@nil FileInfo) l)
          by (clear; induction l; now constructor).
        destruct Hlog as [Hlog | [d [Hlog [Hp Hv]]]].
        * exists [], []. rewrite app_nil_r.
          split; [exact Hlog|]. split; [now constructor | constructor].
        * exists [info], [(source_of info, d)].
          split; [exact Hlog|]. split; [now constructor|].
          constructor; [simpl; auto | constructor].
  }
  destruct files_info as [|info l].
  - simpl. intros H. injection H as <- <-. exists [], []. rewrite app_nil_r.
    split; [reflexivity|]. split; constructor.
  - rewrite organize_files_for_each by discriminate.
    destruct (for_each _ (info :: l) w) as [r0 w0] eqn:Hrun.
    intros H. assert (w' = w0) by (destruct r0; now injection H). subst w0.
    apply (Hloop _ _ _ _ Hrun).
Qed.

Lemma organize_files_moves_witness :
  exists moved moves,
    move_log (snd (organize_files (PurePath.Path_of_string "/w/r")
                     [report_top; report_sub] same_name_twice))
    = moves /\
    subseq moved [report_top; report_sub] /\ List.length moved = List.length moves.
Proof.
  destruct (organize_files_moves "/w/r" [report_top; report_sub] same_name_twice
              (snd (organize_files (PurePath.Path_of_string "/w/r")
                      [report_top; report_sub] same_name_twice))
              (fst (organize_files (PurePath.Path_of_string "/w/r")
                      [report_top; report_sub] same_name_twice))
              (surjective_pairing _))
    as [moved [moves [Hlog [Hsub Hf]]]].
  exists moved, moves. repeat split; [exact Hlog | exact Hsub |].
  clear -Hf. induction Hf; simpl; congruence.
Defined.

(** ** A scan of an untouched folder *)

Lemma strip_prefix_app (l r : list string) : PurePath.strip_prefix l (l ++ r)%list = Some r.
Proof.
  induction l as [|x l IH]; simpl; [reflexivity|].
  now rewrite String.eqb_refl.
Qed.

Lemma node_at_child (w : World) (folder_path : Path) (es : list (string * Node))
  (nm : string) :
  node_at w folder_path = Some (Dir es) ->
  valid_name nm ->
  node_at w (folder_path // nm) = Tree.assoc nm es.
Proof.
  intros Hdir Hnm. unfold node_at in *. rewrite absolute_div by exact Hnm.
  rewrite lookup_app, Hdir. simpl. now destruct (Tree.assoc nm es).
Qed.

Lemma guess_ai_category_name (p q : Path) (c : string) :
  PurePath.name p = PurePath.name q -> guess_ai_category p c = guess_ai_category q c.
Proof. unfold guess_ai_category. now intros ->. Qed.

Lemma assoc_of_In (e : string * Node) (l : list (string * Node)) :
  NoDup (map fst l) -> In e l -> Tree.assoc (fst e) l = Some (snd e).
Proof.
  induction l as [|[k n] l IH]; simpl; intros Hnd Hin; [contradiction|].
  inversion Hnd as [|? ? Hk Hnd']; subst.
  destruct Hin as [<-|Hin]; simpl; [now rewrite String.eqb_refl|].
  destruct (fst e =? k) eqn:E; [|now apply IH].
  apply String.eqb_eq in E. subst k. exfalso. apply Hk. now apply in_map.
Qed.

Section ScanTree.

Variable fmt : Z -> result string.
Variable w : World.
Variable folder_path : Path.

(** The directory reached from the scan root by the names [rel]. *)
Definition below_root (rel : list string) : Path :=
  mkPath (root folder_path) (parts folder_path ++ rel).

Lemma below_root_nil : below_root [] = folder_path.
Proof. unfold below_root. rewrite app_nil_r. now destruct folder_path. Qed.

Lemma absolute_below_root (rel : list string) :
  absolute w (below_root rel) = (absolute w folder_path ++ rel)%list.
Proof.
  unfold absolute, below_root, PurePath.is_absolute. simpl.
  destruct (root folder_path); [apply app_assoc | reflexivity | reflexivity].
Qed.

Lemma below_root_div (rel : list string) (nm : string) :
  valid_name nm -> below_root rel // nm = below_root (rel ++ [nm]).
Proof.
  intros H. rewrite div_valid by exact H. unfold below_root. simpl.
  now rewrite app_assoc.
Qed.

(** What one entry of the directory at [rel] contributes. *)
Lemma outcome_of_below (rel : list string) (es : list (string * Node)) (nm : string)
  (n : Node) :
  node_at w (below_root rel) = Some (Dir es) ->
  valid_name nm ->
  Tree.assoc nm es = Some n ->
  outcome_of (quiescent fmt w) folder_path (below_root rel // nm)
  = match n with
    | File c t =>
        if reserved nm then []
        else [item_for fmt (mkFound ((absolute w folder_path ++ rel) ++ [nm])
                                    (rel ++ [nm]) c t)]
    | Dir _ => []
    end.
Proof.
  intros Hdir Hnm Hn.
  pose proof (node_at_child w (below_root rel) es nm Hdir Hnm) as Hnode.
  rewrite Hn in Hnode.
  destruct (parent_div_valid (below_root rel) nm Hnm) as [_ Hname].
  assert (Hrel : PurePath.relative_to (below_root rel // nm) folder_path
                 = Some (mkPath Relative (rel ++ [nm]))).
  { rewrite below_root_div by exact Hnm. unfold PurePath.relative_to, below_root. simpl.
    rewrite (proj2 (root_eqb_eq _ _) eq_refl). now rewrite strip_prefix_app. }
  unfold outcome_of, get_file_info.
  cbn [is_file stat resolve fromtimestamp quiescent]. unfold path_is_file.
  rewrite Hnode, Hname, Hrel. destruct n as [c t|]; [|reflexivity].
  destruct (reserved nm); [reflexivity|].
  unfold item_for. cbn [found_mtime st_mtime].
  destruct (fmt t) as [modified|e]; [|reflexivity].
  unfold record_for, PurePath.suffix. cbn [found_rel found_full found_content st_size].
  rewrite last_last, Hname.
  rewrite absolute_div, absolute_below_root by exact Hnm.
  now rewrite (guess_ai_category_name (below_root rel // nm) (mkPath Relative [nm])).
Qed.

(** The entries of a sub-list of a listing, scanned: all of them, as the
    flat loop visits them, or the regular files among them, as the recursive
    loop does. *)
Lemma outcomes_here (rel : list string) (es l : list (string * Node)) :
  node_at w (below_root rel) = Some (Dir es) ->
  Forall valid_name (map fst es) ->
  NoDup (map fst es) ->
  incl l es ->
  flat_map (outcome_of (quiescent fmt w) folder_path)
           (map (fun e => below_root rel // fst e) l)
  = map (item_for fmt) (files_here (absolute w folder_path ++ rel) rel l) /\
  flat_map (outcome_of (quiescent fmt w) folder_path)
           (map (fun filename => below_root rel // filename) (Tree.filenames l))
  = map (item_for fmt) (files_here (absolute w folder_path ++ rel) rel l).
Proof.
  intros Hdir Hvalid Hnd. unfold files_here, Tree.filenames.
  induction l as [|e l IH]; intros Hl; [split; reflexivity|].
  assert (He : In e es) by (apply Hl; now left).
  assert (Hl' : incl l es) by (intros x Hx; apply Hl; now right).
  destruct (IH Hl') as [IH1 IH2].
  assert (Hnm : valid_name (fst e))
    by (apply (proj1 (Forall_forall _ _) Hvalid); now apply in_map).
  pose proof (outcome_of_below rel es (fst e) (snd e) Hdir Hnm (assoc_of_In e es Hnd He))
    as Hone.
  cbn [map flat_map filter]. rewrite map_app, IH1, Hone. split.
  - f_equal. destruct (snd e) as [c t|]; [|reflexivity].
    now destruct (reserved (fst e)).
  - destruct (snd e) as [c t|] eqn:Hs.
    + cbn [map flat_map]. rewrite IH2, Hone. f_equal.
      now destruct (reserved (fst e)).
    + exact IH2.
Qed.

(** The entries of a walk of the tree [n], scanned. *)
Lemma outcomes_below (n : Node) :
  forall rel,
    node_at w (below_root rel) = Some n ->
    wf_node n ->
    flat_map (outcome_of (quiescent fmt w) folder_path)
             (walk_entries (Tree.walk (below_root rel) n))
    = map (item_for fmt) (files_below (absolute w folder_path ++ rel) rel n).
Proof.
  induction n as [c t | es IH] using Node_nested_ind; intros rel Hnode Hwf.
  - reflexivity.
  - inversion Hwf as [|? Hvalid Hnd Hchildren]; subst.
    rewrite walk_Dir. unfold walk_entries. cbn [flat_map fst snd files_below].
    rewrite flat_map_app, map_app.
    rewrite (proj2 (outcomes_here rel es es Hnode Hvalid Hnd (incl_refl es))).
    f_equal. fold walk_entries.
    assert (Hsub : forall l, incl l es ->
               Forall (fun e => forall rel,
                         node_at w (below_root rel) = Some (snd e) -> wf_node (snd e) ->
                         flat_map (outcome_of (quiescent fmt w) folder_path)
                                  (walk_entries (Tree.walk (below_root rel) (snd e)))
                         = map (item_for fmt)
                               (files_below (absolute w folder_path ++ rel) rel (snd e))) l ->
               flat_map (outcome_of (quiescent fmt w) folder_path)
                 (walk_entries
                    (flat_map (fun e => Tree.walk (below_root rel // fst e) (snd e)) l))
               = map (item_for fmt)
                     (flat_map (fun e =>
                                  files_below ((absolute w folder_path ++ rel) ++ [fst e])
                                              (rel ++ [fst e]) (snd e)) l)).
    { induction l as [|e l IHl]; intros Hl Hall; [reflexivity|].
      assert (He : In e es) by (apply Hl; now left).
      assert (Hnm : valid_name (fst e))
        by (apply (proj1 (Forall_forall _ _) Hvalid); now apply in_map).
      inversion Hall as [|? ? Hhead Htail]; subst.
      cbn [flat_map]. unfold walk_entries in *. rewrite !flat_map_app, map_app.
      rewrite IHl by (assumption || (intros x Hx; apply Hl; now right)).
      f_equal. rewrite below_root_div by exact Hnm.
      rewrite Hhead.
      - now rewrite <- app_assoc.
      - rewrite <- below_root_div by exact Hnm.
        rewrite (node_at_child w (below_root rel) es _ Hnode Hnm).
        now apply assoc_of_In.
      - apply (proj1 (Forall_forall _ _) Hchildren e He). }
    apply Hsub; [apply incl_refl | exact IH].
Qed.

End ScanTree.

(** Both modes of a scan of a well-formed folder that nothing else touches:
    the records of the files found, up to the first one whose modification
    time [datetime] rejects. *)
Lemma quiescent_scan
  (fmt : Z -> result string) (w : World) (folder_path : Path) (es : list (string * Node))
  (recursive : bool) :
  node_at w folder_path = Some (Dir es) ->
  wf_node (Dir es) ->
  scan_folder (quiescent fmt w) folder_path recursive
  = collect (map (item_for fmt) (files_found recursive (absolute w folder_path) es)).
Proof.
  intros Hnode Hwf.
  pose proof (below_root_nil folder_path) as Hroot.
  destruct recursive.
  - rewrite (scan_folder_collect _ _ true
               (walk_entries (Tree.walk folder_path (Dir es))))
      by (unfold enumerate; cbn [os_walk quiescent]; now rewrite Hnode).
    pose proof (outcomes_below fmt w folder_path (Dir es) []) as H.
    rewrite Hroot, app_nil_r in H. now rewrite H.
  - rewrite (scan_folder_collect _ _ false (map (fun e => folder_path // fst e) es))
      by (unfold enumerate; cbn [iterdir quiescent]; now rewrite Hnode).
    inversion Hwf as [|? Hvalid Hnd _]; subst.
    pose proof (outcomes_here fmt w folder_path [] es es) as H.
    rewrite Hroot, app_nil_r in H.
    now rewrite (proj1 (H Hnode Hvalid Hnd (incl_refl es))).
Qed.







(** ** Organizing an organized folder *)

Lemma wf_Dir_inv (es : list (string * Node)) :
  wf_node (Dir es) ->
  Forall valid_name (map fst es) /\ NoDup (map fst es) /\
  Forall (fun e => wf_node (snd e)) es.
Proof. intros H. inversion H; auto. Qed.

Section OrganizedFolder.

Variable w : World.
Variable root_path : string.

Let root_folder : Path := PurePath.Path_of_string root_path.

Hypothesis root_absolute : anchored root_folder = true.

Variable es : list (string * Node).
Hypothesis root_listing : node_at w root_folder = Some (Dir es).
Hypothesis root_wf : wf_node (Dir es).

Lemma root_absolute_parts : absolute w root_folder = parts root_folder.
Proof.
  unfold absolute, PurePath.is_absolute.
  now rewrite (proj1 (anchored_Slash _) root_absolute).
Qed.

(** A file that lies in the folder of its own category is skipped, and the
    step changes nothing. *)
Lemma organize_one_in_place (nm f c modified : string) (t : Z)
  (es' : list (string * Node)) :
  In (nm, Dir es') es ->
  valid_name f ->
  get_category (PyStr.lower (PurePath.suffix_of f)) = nm ->
  organize_one root_folder
    (record_for modified
       (mkFound ((absolute w root_folder ++ [nm]) ++ [f]) ([nm] ++ [f]) c t)) w
  = (Ok tt, w).
Proof.
  intros Hin Hf Hcat.
  destruct (wf_Dir_inv es root_wf) as [Hvalid [Hnd _]].
  assert (Hnm : valid_name nm)
    by (apply (proj1 (Forall_forall _ _) Hvalid); now apply (in_map fst _ _ Hin)).
  set (info := record_for modified _).
  assert (Hc : category info = nm) by exact Hcat.
  assert (Hsrc : source_of info
                 = mkPath Slash ((parts root_folder ++ [nm]) ++ [f])).
  { unfold source_of, info, record_for. cbn [full_path found_full].
    rewrite root_absolute_parts. apply Path_of_string_str.
    apply Forall_app. split; [|constructor; [exact Hf | constructor]].
    apply Forall_app. split; [apply Path_of_string_parts_valid|].
    constructor; [exact Hnm | constructor]. }
  assert (Hskip : PurePath.eqb (PurePath.parent (source_of info))
                               (root_folder // category info) = true).
  { rewrite Hsrc, Hc, div_valid by exact Hnm.
    unfold PurePath.eqb, PurePath.parent. cbn [root parts].
    rewrite (proj1 (anchored_Slash _) root_absolute), removelast_last.
    cbn [PurePath.root_eqb].
    now destruct (list_eq_dec string_dec (parts root_folder ++ [nm])
                              (parts root_folder ++ [nm])). }
  destruct (organize_one_skip root_folder info w Hskip) as [-> _].
  rewrite Hc. unfold mkdir_exist_ok.
  rewrite (node_at_child w root_folder es nm root_listing Hnm).
  pose proof (assoc_of_In (nm, Dir es') es Hnd Hin) as Ha. cbn [fst snd] in Ha.
  now rewrite Ha.
Qed.

Lemma for_each_in_place (l : list FileInfo) :
  (forall info, In info l -> organize_one root_folder info w = (Ok tt, w)) ->
  for_each (organize_one root_folder) l w = (Ok tt, w).
Proof.
  induction l as [|info l IH]; intros H; [reflexivity|].
  simpl. unfold bind. rewrite (H info) by now left.
  apply IH. intros i Hi. apply H. now right.
Qed.

(** The files found in an organized folder lie in the folder of their
    category. *)
Lemma organized_found (f : Found) :
  organized (Dir es) ->
  In f (files_below (absolute w root_folder) [] (Dir es)) ->
  exists nm es' fn c t,
    In (nm, Dir es') es /\ In (fn, File c t) es' /\
    get_category (PyStr.lower (PurePath.suffix_of fn)) = nm /\
    f = mkFound ((absolute w root_folder ++ [nm]) ++ [fn]) ([nm] ++ [fn]) c t.
Proof.
  intros [es0 [Heq Horg]]. injection Heq as <-.
  cbn [files_below]. rewrite in_app_iff. intros [Hin | Hin].
  - exfalso. unfold files_here in Hin. apply in_flat_map in Hin as [e [He Hin]].
    specialize (Horg e He). destruct (snd e); [|contradiction].
    now rewrite Horg in Hin.
  - apply in_flat_map in Hin as [[nm n] [He Hin]].
    specialize (Horg _ He). cbn [fst snd] in *.
    destruct n as [|es']; [contradiction|].
    cbn [files_below] in Hin. rewrite in_app_iff in Hin. destruct Hin as [Hin | Hin].
    + unfold files_here in Hin. apply in_flat_map in Hin as [[fn n'] [He' Hin]].
      specialize (Horg _ He'). cbn [fst snd] in *.
      destruct n' as [c t|]; [|contradiction].
      destruct (reserved fn) eqn:Hr; [contradiction|].
      destruct Hin as [<-|[]]. destruct Horg as [Horg|Horg]; [discriminate|].
      exists nm, es', fn, c, t. auto.
    + exfalso. apply in_flat_map in Hin as [[fn n'] [He' Hin]].
      specialize (Horg _ He'). cbn [fst snd] in *.
      destruct n' as [c t|es'']; [contradiction|].
      now rewrite Horg in Hin.
Qed.

End OrganizedFolder.

(** X13. Organizing an organized folder changes nothing.  When the folder
    is given as a path from [/], with a single leading slash and without
    [..], and holds, at
    its top, only report files and directories, and in each of these only
    files of the category the directory is named after (besides report files
    and sub-directories without files), [organize_files] on the index that a
    recursive scan of the folder returns ends normally, performs no move and
    leaves the file system as it is; and the scan followed by the organizer,
    whether the scan returns or raises, leaves it as it is. *)
Theorem organize_organized_folder
  (fmt : Z -> result string) (w : World) (root_path : string) (n : Node) :
  let root_folder := PurePath.Path_of_string root_path in
  anchored root_folder = true ->
  ~ In ".." (parts root_folder) ->
  node_at w root_folder = Some n ->
  wf_node n ->
  organized n ->
  (forall files_info,
      scan_folder (quiescent fmt w) root_folder true = Ok files_info ->
      exists msg, organize_files root_folder files_info w = (Ok msg, w)) /\
  snd (scan_then_organize fmt root_folder true w) = w.
Proof.
  intros root_folder Habs _ Hnode Hwf Horg. subst root_folder.
  assert (Hrun : forall files_info,
             scan_folder (quiescent fmt w) (PurePath.Path_of_string root_path) true
             = Ok files_info ->
             exists msg,
               organize_files (PurePath.Path_of_string root_path) files_info w
               = (Ok msg, w)).
  { intros files_info Hscan.
    destruct Horg as [es [-> Horg]].
    rewrite (quiescent_scan fmt w _ es true Hnode Hwf) in Hscan.
    apply collect_In in Hscan. cbn [files_found] in Hscan.
    assert (Hstep : forall info, In info files_info ->
               organize_one (PurePath.Path_of_string root_path) info w = (Ok tt, w)).
    { intros info Hin.
      assert (Hitem : In (Ok info)
                         (map (item_for fmt)
                              (files_below
                                 (absolute w (PurePath.Path_of_string root_path)) []
                                 (Dir es))))
        by (rewrite Hscan; now apply in_map).
      apply in_map_iff in Hitem as [f [Hf Hfound]].
      unfold item_for in Hf.
      destruct (fmt (found_mtime f)) as [modified|e]; [|discriminate].
      injection Hf as <-.
      destruct (organized_found w root_path es f
                  (ex_intro _ es (conj eq_refl Horg)) Hfound)
        as [nm [es' [fn [c [t [He [He' [Hcat ->]]]]]]]].
      apply (organize_one_in_place w root_path Habs es Hnode Hwf nm fn c modified t es' He);
        [|exact Hcat].
      destruct (wf_Dir_inv es Hwf) as [_ [_ Hchildren]].
      pose proof (proj1 (Forall_forall _ _) Hchildren _ He) as Hwf'.
      destruct (wf_Dir_inv es' Hwf') as [Hvalid' _].
      apply (proj1 (Forall_forall _ _) Hvalid'). now apply (in_map fst _ _ He'). }
    destruct files_info as [|info l].
    - eexists. reflexivity.
    - rewrite organize_files_for_each by discriminate.
      rewrite (for_each_in_place w _ (info :: l) Hstep). eauto. }
  split; [exact Hrun|].
  unfold scan_then_organize.
  destruct (scan_folder (quiescent fmt w) (PurePath.Path_of_string root_path) true)
    as [files_info|e]; [|reflexivity].
  destruct (Hrun files_info eq_refl) as [msg ->]. reflexivity.
Qed.

Lemma organize_organized_folder_witness :
  snd (scan_then_organize epoch (PurePath.Path_of_string "/w/r") true organized_folder)
  = organized_folder.
Proof.
  apply (organize_organized_folder epoch organized_folder "/w/r"
           (Dir [("sub", Dir []);
                 ("organized_index.csv", File "old" 2);
                 ("Documents", Dir [("report.doc", File "first" 1);
                                    ("report (1).doc", File "second" 2)]);
                 ("Others", Dir [("photo123.xyz", File "xyz" 3)])])
           eq_refl ltac:(simpl; intuition discriminate) eq_refl).
  - repeat (constructor; simpl; try (intuition discriminate)).
  - eexists. split; [reflexivity|].
    intros e He. simpl in He.
    destruct He as [<-|[<-|[<-|[<-|[]]]]]; cbn [fst snd].
    + intros e' [].
    + reflexivity.
    + intros e' He'. simpl in He'.
      destruct He' as [<-|[<-|[]]]; cbn [fst snd]; right; reflexivity.
    + intros e' He'. simpl in He'.
      destruct He' as [<-|[]]; cbn [fst snd]; right; reflexivity.
Defined.

(** ** Organizer: how a step fails *)




(** ** Further instances *)

Lemma scan_excludes_report_files_witness :
  name (hd report_top two_files_index) <> "organized_index.csv" /\
  name (hd report_top two_files_index) <> "organized_index.json".
Proof.
  apply (scan_excludes_report_files (quiescent epoch two_files)
           (PurePath.Path_of_string "/w/r") true two_files_index).
  - reflexivity.
  - simpl. auto.
Defined.

Lemma scan_record_extension_witness :
  category (hd report_top two_files_index)
  = get_category (extension (hd report_top two_files_index)).
Proof.
  apply (scan_record_extension (quiescent epoch two_files)
           (PurePath.Path_of_string "/w/r") true two_files_index).
  - reflexivity.
  - simpl. auto.
Defined.

Lemma search_files_empty_query_witness :
  map name (search_files photo_report_index "category" "") = ["report.doc"; "pic.png"] /\
  search_files photo_report_index "extension" "." = [].
Proof.
  split.
  - rewrite (proj1 (proj2 search_files_empty_query) (quiescent epoch photo_report)
               (PurePath.Path_of_string "/w/r") true photo_report_index eq_refl).
    reflexivity.
  - apply (proj2 (proj2 search_files_empty_query) (quiescent epoch photo_report)
             (PurePath.Path_of_string "/w/r") true photo_report_index "." eq_refl eq_refl).
Defined.

(** ** Category search by any category name *)

Lemma category_names_lower_inj (c1 c2 : string) :
  In c1 ("" :: "Others" :: map fst CATEGORY_MAP) ->
  In c2 ("Others" :: map fst CATEGORY_MAP) ->
  PyStr.lower c1 = PyStr.lower c2 -> c1 = c2.
Proof.
  simpl. intros H1 H2.
  repeat (destruct H1 as [<-|H1]; [|]); try contradiction;
    repeat (destruct H2 as [<-|H2]; [|]); try contradiction;
    intros H; first [reflexivity | discriminate H].
Qed.

(** X15. On the index of a scan, a ["category"] search whose query is the
    name of a category (one of the table or ["Others"]), in any letter case,
    returns exactly the records of that category and the records whose hint
    is that category. *)
Theorem search_files_category_name
  (env : ScanEnv) (folder_path : Path) (recursive : bool) (files_info : list FileInfo)
  (c query : string) :
  scan_folder env folder_path recursive = Ok files_info ->
  In c ("Others" :: map fst CATEGORY_MAP) ->
  PyStr.lower query = PyStr.lower c ->
  search_files files_info "category" query
  = filter (fun info => (category info =? c) || (ai_hint info =? c)) files_info.
Proof.
  intros Hscan Hc Hq. rewrite search_files_filter. apply filter_ext_in.
  apply (proj1 (Forall_forall
                  (fun info => matches "category" (PyStr.lower query) info = _)
                  files_info)).
  apply (scan_folder_Forall env folder_path) with (recursive := recursive);
    [|exact Hscan].
  intros entry info H. apply get_file_info_classified in H as [Hcat [Hhint _]].
  assert (Hin1 : In (category info) ("" :: "Others" :: map fst CATEGORY_MAP)).
  { right. rewrite Hcat. apply first_category_range. }
  assert (Hin2 : In (ai_hint info) ("" :: "Others" :: map fst CATEGORY_MAP)).
  { rewrite Hhint. pose proof (guess_ai_category_range entry (category info)) as Hr.
    simpl in Hr. simpl. intuition. }
  unfold matches. simpl. rewrite Hq. f_equal.
  - destruct (String.eqb_spec (category info) c) as [->|Hne];
      [apply String.eqb_refl|].
    apply String.eqb_neq. intros Heq. apply Hne. symmetry in Heq.
    apply category_names_lower_inj; assumption.
  - destruct (String.eqb_spec (ai_hint info) c) as [->|Hne];
      [apply String.eqb_refl|].
    apply String.eqb_neq. intros Heq. apply Hne. symmetry in Heq.
    apply category_names_lower_inj; assumption.
Qed.

Lemma search_files_category_name_witness :
  map name (search_files photo_report_index "category" "DOCUMENTS") = ["report.doc"].
Proof.
  rewrite (search_files_category_name (quiescent epoch photo_report)
             (PurePath.Path_of_string "/w/r") true photo_report_index
             "Documents" "DOCUMENTS" eq_refl).
  - reflexivity.
  - simpl. tauto.
  - reflexivity.
Defined.

(** ** Exporting and scanning *)

Section ExportScan.

Lemma lookup_put_listing (n n' : Node) (p : list string) (x : string) (v : option Node)
  (es : list (string * Node)) :
  Tree.put n (p ++ [x])%list v = Ok n' ->
  Tree.lookup n p = Some (Dir es) ->
  Tree.lookup n' p = Some (Dir (Tree.set_entry x v es)).
Proof.
  revert n n'. induction p as [|a p IH]; intros n n' H Hl;
    destruct n as [|es0]; simpl in H; try discriminate.
  - injection Hl as ->. now injection H as <-.
  - destruct (p ++ [x])%list as [|z l] eqn:El; [now destruct p|].
    cbn [Tree.lookup] in Hl.
    destruct (Tree.assoc a es0) as [d|] eqn:Ha; [|discriminate].
    destruct (Tree.put d (z :: l) v) as [d'|e] eqn:Hd; [|discriminate].
    injection H as <-. cbn [Tree.lookup]. rewrite assoc_set_entry_same.
    apply (IH d d' Hd Hl).
Qed.

Lemma remove_key_absent (k : string) (l : list (string * Node)) :
  ~ In k (map fst l) -> Tree.remove_key k l = l.
Proof.
  unfold Tree.remove_key. induction l as [|[k0 n0] l IH]; simpl; intros H; [reflexivity|].
  destruct (k =? k0) eqn:E.
  - apply String.eqb_eq in E. subst k0. exfalso. apply H. now left.
  - simpl. f_equal. apply IH. intros Hin. apply H. now right.
Qed.

Lemma set_entry_keys (k : string) (n : Node) (l : list (string * Node)) :
  NoDup (map fst l) ->
  map fst (Tree.set_entry k (Some n) l)
  = if mem k (map fst l) then map fst l else (map fst l ++ [k])%list.
Proof.
  unfold mem. induction l as [|[k0 n0] l IH]; simpl; intros Hnd; [reflexivity|].
  inversion Hnd as [|? ? Hk0 Hnd']; subst.
  destruct (k =? k0) eqn:E; simpl.
  - apply String.eqb_eq in E. subst k0. now rewrite remove_key_absent.
  - rewrite IH by exact Hnd'. now destruct (existsb (String.eqb k) (map fst l)).
Qed.

Lemma set_entry_children (P : Node -> Prop) (k : string) (n : Node)
  (l : list (string * Node)) :
  P n -> Forall (fun e => P (snd e)) l ->
  Forall (fun e => P (snd e)) (Tree.set_entry k (Some n) l).
Proof.
  intros Hn. induction 1 as [|[k0 n0] l Hh Ht IH]; simpl; [now repeat constructor|].
  destruct (k =? k0).
  - constructor; [exact Hn|]. unfold Tree.remove_key.
    apply Forall_forall. intros e He. apply filter_In in He as [He _].
    apply (proj1 (Forall_forall _ _) Ht e He).
  - now constructor.
Qed.

(** Writing a regular file into a well-formed directory keeps it so. *)
Lemma wf_set_entry (k c : string) (t : Z) (es : list (string * Node)) :
  valid_name k -> wf_node (Dir es) ->
  wf_node (Dir (Tree.set_entry k (Some (File c t)) es)).
Proof.
  intros Hk Hwf. destruct (wf_Dir_inv es Hwf) as [Hvalid [Hnd Hch]].
  constructor.
  - rewrite set_entry_keys by exact Hnd.
    destruct (mem k (map fst es)); [exact Hvalid|].
    apply Forall_app. split; [exact Hvalid | constructor; [exact Hk | constructor]].
  - rewrite set_entry_keys by exact Hnd.
    destruct (mem k (map fst es)) eqn:E; [exact Hnd|].
    apply NoDup_app; [exact Hnd | constructor; [intros [] | constructor] |].
    intros x Hx [<-|[]]. apply mem_In in Hx. congruence.
  - apply set_entry_children; [constructor | exact Hch].
Qed.

Lemma flat_map_remove_key {B : Type} (g : string * Node -> list B) (k : string)
  (l : list (string * Node)) :
  (forall e, In e l -> fst e = k -> g e = []) ->
  flat_map g (Tree.remove_key k l) = flat_map g l.
Proof.
  unfold Tree.remove_key. induction l as [|[k1 n1] l IH]; simpl; intros H; [reflexivity|].
  assert (Ht : forall e, In e l -> fst e = k -> g e = [])
    by (intros e He; apply H; now right).
  destruct (k =? k1) eqn:E; simpl.
  - apply String.eqb_eq in E. subst k1.
    rewrite (H (k, n1) (or_introl eq_refl) eq_refl). simpl. now apply IH.
  - f_equal. now apply IH.
Qed.

(** A function of the entries that ignores the name [k] does not see a
    rebinding of [k]. *)
Lemma flat_map_set_entry {B : Type} (g : string * Node -> list B) (k : string)
  (n : Node) (l : list (string * Node)) :
  g (k, n) = [] ->
  (forall e, In e l -> fst e = k -> g e = []) ->
  flat_map g (Tree.set_entry k (Some n) l) = flat_map g l.
Proof.
  intros Hn. induction l as [|[k0 n0] l IH]; simpl; intros H.
  - now rewrite Hn.
  - assert (Ht : forall e, In e l -> fst e = k -> g e = [])
      by (intros e He; apply H; now right).
    destruct (k =? k0) eqn:E.
    + apply String.eqb_eq in E. subst k0. simpl. rewrite Hn.
      rewrite (H (k, n0) (or_introl eq_refl) eq_refl). simpl.
      now apply flat_map_remove_key.
    + simpl. f_equal. now apply IH.
Qed.

(** A report file written into a directory changes nothing in what a scan
    finds in its tree. *)
Lemma files_set_entry (full rel : list string)
  (k c : string) (t : Z) (es : list (string * Node)) :
  reserved k = true ->
  NoDup (map fst es) ->
  (forall es', Tree.assoc k es <> Some (Dir es')) ->
  files_below full rel (Dir (Tree.set_entry k (Some (File c t)) es))
  = files_below full rel (Dir es) /\
  files_here full rel (Tree.set_entry k (Some (File c t)) es)
  = files_here full rel es.
Proof.
  intros Hr Hnd Hnotdir.
  assert (Hfile : forall e, In e es -> fst e = k -> exists c' t', snd e = File c' t').
  { intros e He Hk. pose proof (assoc_of_In e es Hnd He) as Ha. rewrite Hk in Ha.
    destruct (snd e) as [c' t'|es'] eqn:Hs; [eauto|]. now elim (Hnotdir es'). }
  assert (Hhere : files_here full rel (Tree.set_entry k (Some (File c t)) es)
                  = files_here full rel es).
  { unfold files_here. apply flat_map_set_entry.
    - cbn [fst snd]. now rewrite Hr.
    - intros e He Hk. destruct (Hfile e He Hk) as [c' [t' ->]]. now rewrite Hk, Hr. }
  split; [|exact Hhere].
  cbn [files_below]. rewrite Hhere. f_equal.
  apply flat_map_set_entry; [reflexivity|].
  intros e He Hk. now destruct (Hfile e He Hk) as [c' [t' ->]].
Qed.

(** One report written: the listing of the folder afterwards, still well
    formed, in which a scan finds the same files. *)
Lemma write_report_listing (folder_path : Path) (k text : string)
  (now : Z) (w w' : World) (es : list (string * Node)) (recursive : bool) :
  valid_name k -> reserved k = true ->
  node_at w folder_path = Some (Dir es) ->
  wf_node (Dir es) ->
  write_text (folder_path // k) text now w = (Ok tt, w') ->
  exists es',
    node_at w' folder_path = Some (Dir es') /\ wf_node (Dir es') /\
    files_found recursive (absolute w' folder_path) es'
    = files_found recursive (absolute w folder_path) es.
Proof.
  intros Hk Hr Hdir Hwf H.
  apply write_text_ok in H as [Hnd [Hcwd [_ [Hput _]]]].
  assert (Habs : absolute w' folder_path = absolute w folder_path)
    by (unfold absolute; now rewrite Hcwd).
  rewrite absolute_div in Hput by exact Hk.
  exists (Tree.set_entry k (Some (File text now)) es).
  split; [|split; [now apply wf_set_entry|]].
  - unfold node_at. rewrite Habs. apply (lookup_put_listing _ _ _ _ _ _ Hput Hdir).
  - destruct (wf_Dir_inv es Hwf) as [_ [Hnodup _]]. rewrite Habs.
    assert (Hnotdir : forall es', Tree.assoc k es <> Some (Dir es')).
    { intros es' Ha. unfold path_is_dir in Hnd.
      rewrite (node_at_child w folder_path es k Hdir Hk), Ha in Hnd. discriminate. }
    destruct (files_set_entry (absolute w folder_path) [] k text now es Hr Hnodup Hnotdir)
      as [Hbelow Hhere].
    unfold files_found. now destruct recursive.
Qed.

End ExportScan.

(** X16. Exporting does not change what a scan returns.  After an export
    into a well-formed folder has returned, a scan of that folder, recursive
    or not, returns the same index as a scan before the export: the two
    report files it wrote, or rewrote, are not scanned. *)
Theorem export_then_scan
  (utf8 : FileInfo -> bool) (csv_text json_text : list FileInfo -> string) (now : Z)
  (fmt : Z -> result string)
  (folder_path : Path) (files_info : list FileInfo) (w w' : World) (msg : string)
  (es : list (string * Node)) (recursive : bool) :
  files_info <> [] ->
  node_at w folder_path = Some (Dir es) ->
  wf_node (Dir es) ->
  export_reports utf8 csv_text json_text now folder_path files_info w = (Ok msg, w') ->
  scan_folder (quiescent fmt w') folder_path recursive
  = scan_folder (quiescent fmt w) folder_path recursive.
Proof.
  intros Hne Hdir Hwf. rewrite export_reports_unfold by exact Hne.
  destruct (write_text (csv_path_of folder_path) _ now w) as [[[]|e] w1] eqn:H1;
    [|discriminate].
  destruct (forallb utf8 files_info); [|discriminate].
  destruct (write_text (json_path_of folder_path) _ now w1) as [[[]|e] w2] eqn:H2;
    [|discriminate].
  intros H. injection H as _ <-.
  destruct report_names_valid as [Hc Hj].
  destruct (write_report_listing folder_path "organized_index.csv" _ now w w1 es
              recursive Hc eq_refl Hdir Hwf H1) as [es1 [Hdir1 [Hwf1 Hf1]]].
  destruct (write_report_listing folder_path "organized_index.json" _ now w1 w2 es1
              recursive Hj eq_refl Hdir1 Hwf1 H2) as [es2 [Hdir2 [Hwf2 Hf2]]].
  rewrite (quiescent_scan fmt w2 folder_path es2 recursive Hdir2 Hwf2).
  rewrite (quiescent_scan fmt w folder_path es recursive Hdir Hwf).
  now rewrite Hf2, Hf1.
Qed.

Lemma export_then_scan_witness :
  scan_folder (quiescent epoch
                 (snd (export_reports no_surrogate (fun _ => "csv") (fun _ => "json") 9
                         (PurePath.Path_of_string "/w/r") two_files_index with_report)))
              (PurePath.Path_of_string "/w/r") true
  = scan_folder (quiescent epoch with_report) (PurePath.Path_of_string "/w/r") true.
Proof.
  apply (export_then_scan no_surrogate (fun _ => "csv") (fun _ => "json") 9 epoch
           (PurePath.Path_of_string "/w/r") two_files_index with_report _
           (match fst (export_reports no_surrogate (fun _ => "csv") (fun _ => "json") 9
                         (PurePath.Path_of_string "/w/r") two_files_index with_report)
            with Ok m => m | Raise _ => "" end)
           [("a.txt", File "alpha" 1); ("organized_index.csv", File "old" 2);
            ("sub", Dir [("b.JPG", File "beta" 3)])] true).
  - discriminate.
  - reflexivity.
  - repeat (constructor; simpl; try (intuition discriminate)).
  - reflexivity.
Defined.

(** ** The hint counts of the scan log *)

Lemma ai_counts_fold (files_info : list FileInfo) (d : list (string * nat)) :
  let d' := fold_left
              (fun d info =>
                 if (category info =? "Others") && negb (ai_hint info =? "")
                 then dict_incr (ai_hint info) d
                 else d) files_info d in
  (NoDup (map fst d) -> NoDup (map fst d')) /\
  (Forall (fun kv => 0 < snd kv) d -> Forall (fun kv => 0 < snd kv) d') /\
  (forall h, h <> "" -> dict_get h d' = dict_get h d + hinted h files_info) /\
  (dict_get "" d = 0 -> dict_get "" d' = 0) /\
  list_sum (map snd d')
  = list_sum (map snd d)
    + List.length (filter (fun info => (category info =? "Others")
                                       && negb (ai_hint info =? "")) files_info).
Proof.
  revert d. induction files_info as [|info l IH]; intros d; simpl.
  - repeat split; auto; try (intros h _; unfold hinted; simpl; lia).
  - destruct ((category info =? "Others") && negb (ai_hint info =? "")) eqn:Hc.
    + destruct (IH (dict_incr (ai_hint info) d)) as [Hnd [Hpos [Hget [Hemp Hsum]]]].
      apply andb_true_iff in Hc as [Hcat Hhint].
      apply negb_true_iff in Hhint.
      repeat split.
      * intros H. now apply Hnd, dict_incr_NoDup.
      * intros H. now apply Hpos, dict_incr_positive.
      * intros h Hh. rewrite (Hget h Hh), dict_get_incr. unfold hinted. simpl.
        rewrite Hcat, (String.eqb_sym h). simpl.
        destruct (ai_hint info =? h); simpl; lia.
      * intros H. apply Hemp. rewrite dict_get_incr, H.
        now rewrite String.eqb_sym, Hhint.
      * rewrite Hsum, dict_incr_sum. simpl. lia.
    + destruct (IH d) as [Hnd [Hpos [Hget [Hemp Hsum]]]].
      repeat split; auto.
      intros h Hh. rewrite (Hget h Hh). unfold hinted. simpl.
      destruct (category info =? "Others"); [|reflexivity]. simpl in *.
      apply negb_false_iff, String.eqb_eq in Hc. rewrite Hc.
      destruct (String.eqb_spec "" h); [congruence | reflexivity].
Qed.

(** X17. The hint counts logged after a scan are exact: every non-empty
    hint carried by an ["Others"] record appears once, with the number of
    such records, and nothing else appears.  On the index of a scan the test
    on the category is redundant: the counts add up to the number of records
    that carry a hint. *)
Theorem ai_counts_exact :
  (forall files_info,
      NoDup (map fst (ai_counts files_info)) /\
      forall h n, In (h, n) (ai_counts files_info) <->
                  h <> "" /\ n = hinted h files_info /\ 0 < n) /\
  (forall env folder_path recursive files_info,
      scan_folder env folder_path recursive = Ok files_info ->
      list_sum (map snd (ai_counts files_info))
      = List.length (filter (fun info => negb (ai_hint info =? "")) files_info)).
Proof.
  split.
  - intros files_info.
    destruct (ai_counts_fold files_info []) as [Hnd [Hpos [Hget [Hemp _]]]].
    fold (ai_counts files_info) in *.
    specialize (Hnd (NoDup_nil _)). specialize (Hpos (Forall_nil _)).
    specialize (Hemp eq_refl).
    split; [exact Hnd|]. intros h n. rewrite (assoc_In_NoDup h n _ Hnd). split.
    + intros H.
      assert (Hn : 0 < n).
      { apply (assoc_In_NoDup h n _ Hnd) in H.
        apply (proj1 (Forall_forall _ _) Hpos (h, n) H). }
      assert (Hh : h <> "").
      { intros ->. unfold dict_get in Hemp. rewrite H in Hemp. lia. }
      specialize (Hget h Hh). unfold dict_get in Hget. rewrite H in Hget.
      simpl in Hget. auto.
    + intros [Hh [-> Hn]]. specialize (Hget h Hh). unfold dict_get in Hget.
      simpl in Hget.
      destruct (Tree.assoc h (ai_counts files_info)) as [m|]; [now rewrite Hget | lia].
  - intros env folder_path recursive files_info Hscan.
    destruct (ai_counts_fold files_info []) as [_ [_ [_ [_ Hsum]]]].
    fold (ai_counts files_info) in Hsum. rewrite Hsum. simpl. f_equal.
    apply filter_ext_in.
    apply (proj1 (Forall_forall
                    (fun info => (category info =? "Others") && negb (ai_hint info =? "")
                                 = negb (ai_hint info =? "")) files_info)).
    apply (scan_folder_Forall env folder_path) with (recursive := recursive);
      [|exact Hscan].
    intros entry info Hinfo. apply get_file_info_classified in Hinfo as [_ [Hh _]].
    destruct (String.eqb_spec (category info) "Others") as [_|Hne]; [reflexivity|].
    now rewrite Hh, (guess_ai_category_not_Others _ _ Hne).
Qed.

Lemma ai_counts_exact_witness :
  In ("Images", 1%nat) (ai_counts photo_report_index) /\
  list_sum (map snd (ai_counts photo_report_index)) = 1%nat.
Proof.
  split.
  - apply (proj2 (proj1 ai_counts_exact photo_report_index)).
    split; [discriminate | split; [reflexivity | vm_compute; lia]].
  - rewrite (proj2 ai_counts_exact (quiescent epoch photo_report)
               (PurePath.Path_of_string "/w/r") true photo_report_index eq_refl).
    reflexivity.
Defined.
